(** * The file-storage router of pkg/infra/filestorage

    A shallow embedding of [filestorage.go]: the path helper
    [removeBackendNamePrefix], the resolution [getBackend], the seven
    delegating operations of [service] and [close], followed by the
    properties of the router that the specification states. *)

From Stdlib Require Import Ascii.
From stdpp Require Import base list gmap strings.

Local Open Scope string_scope.
Local Open Scope list_scope.
Local Open Scope stdpp_scope.

(** ** Go's [strings] package

    Go strings are byte sequences; [string] is a list of 8-bit characters. *)

Module GoStrings.

(** [strings.HasPrefix(s, prefix)] *)
Fixpoint HasPrefix (s prefix : string) {struct prefix} : bool :=
  match prefix, s with
  | EmptyString, _ => true
  | String _ _, EmptyString => false
  | String c prefix', String d s' => bool_decide (c = d) && HasPrefix s' prefix'
  end.

(** The slice expression [s[n:]]. *)
Fixpoint sliceFrom (n : nat) (s : string) : string :=
  match n, s with
  | O, _ => s
  | S _, EmptyString => EmptyString
  | S n', String _ s' => sliceFrom n' s'
  end.

(** [strings.TrimPrefix(s, prefix)] *)
Definition TrimPrefix (s prefix : string) : string :=
  if HasPrefix s prefix then sliceFrom (String.length prefix) s else s.

(** [strings.Contains(s, substr)]: [substr] occurs at some offset of [s]. *)
Fixpoint Contains (s substr : string) : bool :=
  HasPrefix s substr ||
  match s with
  | EmptyString => false
  | String _ s' => Contains s' substr
  end.

(** Extends the first element of a list of segments by one byte. *)
Definition consHead (c : Ascii.ascii) (segs : list string) : list string :=
  match segs with
  | [] => [String c EmptyString]
  | seg :: segs' => String c seg :: segs'
  end.

(** The scan of [strings.Split] for a non-empty separator: the leftmost
    occurrence of [sep] ends the current segment, and the [skip] bytes that
    remain of an occurrence are passed over. *)
Fixpoint splitFrom (sep : string) (skip : nat) (s : string) : list string :=
  match s with
  | EmptyString => [EmptyString]
  | String c s' =>
      match skip with
      | S skip' => splitFrom sep skip' s'
      | O =>
          if HasPrefix s sep
          then EmptyString :: splitFrom sep (String.length sep - 1) s'
          else consHead c (splitFrom sep 0 s')
      end
  end.

(** [strings.Split(s, sep)].  With an empty separator Go explodes [s] into
    its characters; no caller in this package does that, and the model
    explodes per byte (the same on ASCII input). *)
Definition Split (s sep : string) : list string :=
  match sep with
  | EmptyString => (λ c, String c EmptyString) <$> String.list_ascii_of_string s
  | String _ _ => splitFrom sep 0 s
  end.

(** [strings.Join(elems, sep)] *)
Fixpoint Join (elems : list string) (sep : string) : string :=
  match elems with
  | [] => EmptyString
  | e :: rest =>
      match rest with
      | [] => e
      | _ :: _ => e +:+ sep +:+ Join rest sep
      end
  end.

End GoStrings.

(** ** Package-level names that [filestorage.go] uses but does not define *)

(** Modelled from the spec: the constant [Delimiter], declared in a file of
    the package that is not part of the sources; the spec writes paths as
    [/mount-name/sub/dir/file.ext] and calls the root path "exactly the
    delimiter". *)
Definition Delimiter : string := "/".

(** The error values that cross the router: [InvalidPath], produced by
    [validatePath], and the backends' own errors, which are opaque to the
    router. *)
Inductive error : Type :=
| InvalidPath
| BackendError (kind : string).

(** A path "contains a [..] traversal segment". *)
Definition hasTraversalSegment (path : string) : bool :=
  bool_decide (".." ∈ GoStrings.Split path Delimiter).

(** A "null/control character": a byte below 32, or 127. *)
Definition isControl (c : Ascii.ascii) : bool :=
  let n := Ascii.nat_of_ascii c in (n <? 32)%nat || (n =? 127)%nat.

Definition hasControl (path : string) : bool :=
  existsb isControl (String.list_ascii_of_string path).

(** Modelled from the spec: [validatePath], defined in a file of the package
    that is not part of the sources.  "Fails with InvalidPath when the path
    contains a [..] traversal segment, a null/control character, or is
    empty"; every other path is valid. *)
Definition validatePath (path : string) : option error :=
  if bool_decide (path = "") || hasControl path || hasTraversalSegment path
  then Some InvalidPath
  else None.

(** Modelled from the spec: [Join], defined in a file of the package that is
    not part of the sources.  "Produces a unified path
    /<mountName><relativePath-with-its-own-leading-delimiter-removed-as-needed>;
    result always starts with the delimiter": the relative path brings its
    own leading delimiter, which is dropped when the mount name is empty and
    the delimiter would be doubled. *)
Definition Join (mountName relativePath : string) : string :=
  Delimiter +:+ mountName +:+
  (if bool_decide (mountName = "")
   then GoStrings.TrimPrefix relativePath Delimiter
   else relativePath).

(** ** [removeBackendNamePrefix] *)

Definition removeBackendNamePrefix (path : string) : string :=
  let path := GoStrings.TrimPrefix path Delimiter in
  if bool_decide (path = Delimiter) || bool_decide (path = "") then Delimiter
  else if negb (GoStrings.Contains path Delimiter) then Delimiter
  else
    let split := GoStrings.Split path Delimiter in
    (* root of storage *)
    if bool_decide (length split = 2) && bool_decide (split !! 1 = Some "")
    then Delimiter
    else
      (* replace storage *)
      let split := <[0 := ""]> split in
      GoStrings.Join split Delimiter.

(** ** Data model *)

(** Modelled from the spec: the entity types are declared in a file of the
    package that is not part of the sources.  The metadata of a file: "full
    path, size, modification time, content type, properties". *)
Record FileMetadata : Type := mkFileMetadata {
  FullPath : string;
  Size : Z;
  Modified : Z;
  MimeType : string;
  Properties : gmap string string;
}.

(** Modelled from the spec: a file, its metadata "plus optional contents";
    Go embeds the metadata, so [file.FullPath] is the metadata's. *)
Record File : Type := mkFile {
  Contents : option (list Byte.byte);
  fileMetadata : FileMetadata;
}.

(** Modelled from the spec: the upsert command; the router reads and writes
    its [Path] field only. *)
Record UpsertFileCommand : Type := mkUpsertFileCommand {
  Path : string;
  upsertContents : option (list Byte.byte);
  upsertProperties : gmap string string;
}.

(** Modelled from the spec: "cursor (Paging) is opaque and backend-owned". *)
Record Paging : Type := mkPaging { pagingState : string }.

(** Modelled from the spec: the listing options, which the router hands to
    the backend unread. *)
Record ListOptions : Type := mkListOptions { listOptionsState : string }.

(** Modelled from the spec: the response of [ListFiles], the entries (a
    slice, which may be nil) and the backend's pagination cursor. *)
Record ListFilesResponse : Type := mkListFilesResponse {
  Files : option (list FileMetadata);
  NextPage : option Paging;
}.

(** The interface [FileStorage] that every backend implements.  A router
    operation calls a backend at most once, so a backend is given by its
    answer to that call; a nil pointer, slice or error is [None].  The
    [context.Context] argument is forwarded untouched and left out. *)
Module FileStorage.
Record t : Type := mk {
  Get : string → option File * option error;
  Delete : string → option error;
  Upsert : UpsertFileCommand → option error;
  ListFiles : string → option Paging → option ListOptions →
              option ListFilesResponse * option error;
  ListFolders : string → option ListOptions →
                option (list FileMetadata) * option error;
  CreateFolder : string → option error;
  DeleteFolder : string → option error;
  close : option error;
}.
End FileStorage.

(** [type service struct]; the logger is the [LogWarn] event below. *)
Record service : Type := mkService {
  dummyBackend : FileStorage.t;
  backendByName : gmap string FileStorage.t;
}.

(** A [range] over a Go map visits every entry once, in an order the
    language leaves unspecified and the runtime varies from one loop to the
    next: each loop over the registry runs with some permutation [order] of
    its entries. *)
Definition rangeOrder (m : gmap string FileStorage.t)
    (order : list (string * FileStorage.t)) : Prop :=
  order ≡ₚ map_to_list m.

(** ** Effects: what the router does to the outside world *)

Inductive Operation : Type :=
| OpGet (path : string)
| OpDelete (path : string)
| OpUpsert (file : UpsertFileCommand)
| OpListFiles (path : string) (cursor : option Paging) (options : option ListOptions)
| OpListFolders (path : string) (options : option ListOptions)
| OpCreateFolder (path : string)
| OpDeleteFolder (path : string)
| OpClose.

Inductive Event : Type :=
| LogWarn (msg : string) (path : string)
| SetPath (path : string)
| Call (backend : FileStorage.t) (op : Operation).

(** A computation returns a value and the events it caused, in order. *)
Definition M (A : Type) : Type := A * list Event.

#[global] Instance M_ret : MRet M := λ A a, (a, []).

#[global] Instance M_bind : MBind M := λ A B f m,
  let '(a, t1) := m in
  let '(b, t2) := f a in
  (b, t1 ++ t2).

Definition emit (e : Event) : M unit := (tt, [e]).

(** A call of a backend method: the answer, and the call on the trace. *)
Definition call {A : Type} (backend : FileStorage.t) (op : Operation) (answer : A) : M A :=
  (answer, [Call backend op]).

(** ** [getBackend] *)

(** What [getBackend] returns: [(backend, backendSpecificPath, backendName,
    nil)], or [(nil, "", "", err)]. *)
Inductive resolution : Type :=
| Resolved (backend : FileStorage.t) (backendSpecificPath backendName : string)
| ResolveError (err : error).

(** The condition of the [if] in the loop of [getBackend]. *)
Definition matchesBackend (path backendName : string) : bool :=
  GoStrings.HasPrefix path (Delimiter +:+ backendName) || bool_decide (backendName = path).

(** The [for ... range b.backendByName] loop; [None] when it falls through. *)
Fixpoint getBackendLoop (order : list (string * FileStorage.t)) (path : string)
    : option resolution :=
  match order with
  | [] => None
  | (backendName, backend) :: rest =>
      if matchesBackend path backendName then
        let backendSpecificPath := removeBackendNamePrefix path in
        match validatePath backendSpecificPath with
        | Some err => Some (ResolveError err)
        | None => Some (Resolved backend backendSpecificPath backendName)
        end
      else getBackendLoop rest path
  end.

Definition getBackend (b : service) (order : list (string * FileStorage.t))
    (path : string) : M resolution :=
  match getBackendLoop order path with
  | Some r => mret r
  | None =>
      match validatePath path with
      | Some err => mret (ResolveError err)
      | None =>
          emit (LogWarn "Backend not found" path) ;;
          mret (Resolved (dummyBackend b) path "")
      end
  end.

(** ** The operations of [service] *)

Definition withFullPath (fullPath : string) (m : FileMetadata) : FileMetadata :=
  mkFileMetadata fullPath (Size m) (Modified m) (MimeType m) (Properties m).

(** [x.FullPath = Join(backendName, x.FullPath)] *)
Definition rejoin (backendName : string) (m : FileMetadata) : FileMetadata :=
  withFullPath (Join backendName (FullPath m)) m.

Definition Get (b : service) (order : list (string * FileStorage.t))
    (path : string) : M (option File * option error) :=
  r ← getBackend b order path;
  match r with
  | ResolveError err => mret (None, Some err)
  | Resolved backend backendSpecificPath backendName =>
      '(file, err) ← call backend (OpGet backendSpecificPath)
                       (FileStorage.Get backend backendSpecificPath);
      let file :=
        match file with
        | Some f => Some (mkFile (Contents f) (rejoin backendName (fileMetadata f)))
        | None => None
        end in
      mret (file, err)
  end.

Definition Delete (b : service) (order : list (string * FileStorage.t))
    (path : string) : M (option error) :=
  r ← getBackend b order path;
  match r with
  | ResolveError err => mret (Some err)
  | Resolved backend backendSpecificPath _ =>
      call backend (OpDelete backendSpecificPath)
        (FileStorage.Delete backend backendSpecificPath)
  end.

(** [file.Path = path] *)
Definition withPath (path : string) (file : UpsertFileCommand) : UpsertFileCommand :=
  mkUpsertFileCommand path (upsertContents file) (upsertProperties file).

(** [file] is a pointer: the command as the router leaves it is returned
    next to the error, and the assignment to its [Path] is the event
    [SetPath]. *)
Definition Upsert (b : service) (order : list (string * FileStorage.t))
    (file : UpsertFileCommand) : M (UpsertFileCommand * option error) :=
  r ← getBackend b order (Path file);
  match r with
  | ResolveError err => mret (file, Some err)
  | Resolved backend backendSpecificPath _ =>
      let file := withPath backendSpecificPath file in
      emit (SetPath backendSpecificPath) ;;
      err ← call backend (OpUpsert file) (FileStorage.Upsert backend file);
      mret (file, err)
  end.

(** The body of [for i := range xs { xs[i].FullPath = Join(backendName,
    xs[i].FullPath) }] at index [i]; an index out of range would panic in
    Go and is never produced by the loop. *)
Definition rejoinAt (backendName : string) (xs : list FileMetadata) (i : nat)
    : list FileMetadata :=
  match xs !! i with
  | Some x => <[i := rejoin backendName x]> xs
  | None => xs
  end.

Definition rejoinLoop (backendName : string) (xs : list FileMetadata)
    : list FileMetadata :=
  foldl (rejoinAt backendName) xs (seq 0 (length xs)).

Definition ListFiles (b : service) (order : list (string * FileStorage.t))
    (path : string) (cursor : option Paging) (options : option ListOptions)
    : M (option ListFilesResponse * option error) :=
  r ← getBackend b order path;
  match r with
  | ResolveError err => mret (None, Some err)
  | Resolved backend backendSpecificPath backendName =>
      '(resp, err) ← call backend (OpListFiles backendSpecificPath cursor options)
                       (FileStorage.ListFiles backend backendSpecificPath cursor options);
      let resp :=
        match resp with
        | Some resp =>
            match Files resp with
            | Some files =>
                Some (mkListFilesResponse (Some (rejoinLoop backendName files))
                        (NextPage resp))
            | None => Some resp
            end
        | None => None
        end in
      mret (resp, err)
  end.

Definition ListFolders (b : service) (order : list (string * FileStorage.t))
    (path : string) (options : option ListOptions)
    : M (option (list FileMetadata) * option error) :=
  r ← getBackend b order path;
  match r with
  | ResolveError err => mret (None, Some err)
  | Resolved backend backendSpecificPath backendName =>
      '(folders, err) ← call backend (OpListFolders backendSpecificPath options)
                          (FileStorage.ListFolders backend backendSpecificPath options);
      let folders :=
        match folders with
        | Some folders => Some (rejoinLoop backendName folders)
        | None => None
        end in
      mret (folders, err)
  end.

Definition CreateFolder (b : service) (order : list (string * FileStorage.t))
    (path : string) : M (option error) :=
  r ← getBackend b order path;
  match r with
  | ResolveError err => mret (Some err)
  | Resolved backend backendSpecificPath _ =>
      call backend (OpCreateFolder backendSpecificPath)
        (FileStorage.CreateFolder backend backendSpecificPath)
  end.

Definition DeleteFolder (b : service) (order : list (string * FileStorage.t))
    (path : string) : M (option error) :=
  r ← getBackend b order path;
  match r with
  | ResolveError err => mret (Some err)
  | Resolved backend backendSpecificPath _ =>
      call backend (OpDeleteFolder backendSpecificPath)
        (FileStorage.DeleteFolder backend backendSpecificPath)
  end.

(** The loop of [close]: [lastError = backend.close()] for every entry. *)
Fixpoint closeLoop (order : list (string * FileStorage.t)) (lastError : option error)
    : M (option error) :=
  match order with
  | [] => mret lastError
  | (_, backend) :: rest =>
      lastError ← call backend OpClose (FileStorage.close backend);
      closeLoop rest lastError
  end.

Definition close (b : service) (order : list (string * FileStorage.t))
    : M (option error) :=
  closeLoop order None.

(** ** The public operations as one family *)

Inductive Request : Type :=
| ReqGet (path : string)
| ReqDelete (path : string)
| ReqUpsert (file : UpsertFileCommand)
| ReqListFiles (path : string) (cursor : option Paging) (options : option ListOptions)
| ReqListFolders (path : string) (options : option ListOptions)
| ReqCreateFolder (path : string)
| ReqDeleteFolder (path : string).

(** The path a request is resolved on. *)
Definition requestPath (req : Request) : string :=
  match req with
  | ReqGet path | ReqDelete path | ReqListFiles path _ _ | ReqListFolders path _
  | ReqCreateFolder path | ReqDeleteFolder path => path
  | ReqUpsert file => Path file
  end.

(** The error a request ends with, and the events it caused. *)
Definition serve (b : service) (order : list (string * FileStorage.t))
    (req : Request) : M (option error) :=
  match req with
  | ReqGet path => let '(res, t) := Get b order path in (res.2, t)
  | ReqDelete path => Delete b order path
  | ReqUpsert file => let '(res, t) := Upsert b order file in (res.2, t)
  | ReqListFiles path cursor options =>
      let '(res, t) := ListFiles b order path cursor options in (res.2, t)
  | ReqListFolders path options =>
      let '(res, t) := ListFolders b order path options in (res.2, t)
  | ReqCreateFolder path => CreateFolder b order path
  | ReqDeleteFolder path => DeleteFolder b order path
  end.

(** The path a backend is handed by a call, if the call has one. *)
Definition operationPath (op : Operation) : option string :=
  match op with
  | OpGet path | OpDelete path | OpListFiles path _ _ | OpListFolders path _
  | OpCreateFolder path | OpDeleteFolder path => Some path
  | OpUpsert file => Some (Path file)
  | OpClose => None
  end.

(** A mount name whose match never hides a traversal segment: it has no
    delimiter in it and is not a prefix of [..] (the empty name, [.] and
    [..] are). *)
Definition properMountName (name : string) : bool :=
  negb (GoStrings.Contains name Delimiter) && negb (GoStrings.HasPrefix ".." name).

(** The entries of an iteration order whose name matches [path]. *)
Definition matching (path : string) (order : list (string * FileStorage.t))
    : list (string * FileStorage.t) :=
  filter (λ entry, matchesBackend path entry.1 = true) order.

(** What the loop of [getBackend] answers once the entry [(name, backend)]
    has matched. *)
Definition matched (path name : string) (backend : FileStorage.t) : resolution :=
  match validatePath (removeBackendNamePrefix path) with
  | Some err => ResolveError err
  | None => Resolved backend (removeBackendNamePrefix path) name
  end.

(** ** Backends and registries to run the router on *)

Definition metadataAt (fullPath : string) : FileMetadata :=
  mkFileMetadata fullPath 0 0 "application/json" ∅.

(** A backend that holds [/x.json] and [/y.json] and answers [close] with
    [closeResult]. *)
Definition stubBackend (closeResult : option error) : FileStorage.t :=
  FileStorage.mk
    (λ path, (Some (mkFile None (metadataAt path)), None))
    (λ _, None)
    (λ _, None)
    (λ _ cursor _,
       (Some (mkListFilesResponse
                (Some [metadataAt "/x.json"; metadataAt "/y.json"]) cursor), None))
    (λ _ _, (Some [metadataAt "/dir"], None))
    (λ _, None)
    (λ _, None)
    closeResult.

(** Modelled from the spec: the dummy backend, whose implementation is not
    part of the sources; "read calls return not found" and "every mutating
    call against it is rejected". *)
Definition dummyFileStorage : FileStorage.t :=
  FileStorage.mk
    (λ _, (None, Some (BackendError "not found")))
    (λ _, Some (BackendError "unsupported operation"))
    (λ _, Some (BackendError "unsupported operation"))
    (λ _ _ _, (None, Some (BackendError "not found")))
    (λ _ _, (None, Some (BackendError "not found")))
    (λ _, Some (BackendError "unsupported operation"))
    (λ _, Some (BackendError "unsupported operation"))
    None.

Definition healthyBackend : FileStorage.t := stubBackend None.

Definition failingBackend : FileStorage.t :=
  stubBackend (Some (BackendError "close failed")).

(** One mount, [mountA]. *)
Definition mountAService : service :=
  mkService dummyFileStorage {[ "mountA" := healthyBackend ]}.

(** Two mounts, one name a prefix of the other. *)
Definition overlappingService : service :=
  mkService dummyFileStorage {[ "db" := healthyBackend; "db2" := failingBackend ]}.

(** A mount whose name is the single dot. *)
Definition dotService : service :=
  mkService dummyFileStorage {[ "." := healthyBackend ]}.

(** Two mounts, of which [a] fails to close. *)
Definition closingService : service :=
  mkService dummyFileStorage {[ "a" := failingBackend; "b" := healthyBackend ]}.

(** ** What an operation asks of the backend it resolved *)

(** The backend call an operation makes once its path is resolved to
    [backendSpecificPath]. *)
Definition operationOf (req : Request) (backendSpecificPath : string) : Operation :=
  match req with
  | ReqGet _ => OpGet backendSpecificPath
  | ReqDelete _ => OpDelete backendSpecificPath
  | ReqUpsert file => OpUpsert (withPath backendSpecificPath file)
  | ReqListFiles _ cursor options => OpListFiles backendSpecificPath cursor options
  | ReqListFolders _ options => OpListFolders backendSpecificPath options
  | ReqCreateFolder _ => OpCreateFolder backendSpecificPath
  | ReqDeleteFolder _ => OpDeleteFolder backendSpecificPath
  end.

(** The error with which a backend answers a call. *)
Definition answerError (backend : FileStorage.t) (op : Operation) : option error :=
  match op with
  | OpGet path => (FileStorage.Get backend path).2
  | OpDelete path => FileStorage.Delete backend path
  | OpUpsert file => FileStorage.Upsert backend file
  | OpListFiles path cursor options => (FileStorage.ListFiles backend path cursor options).2
  | OpListFolders path options => (FileStorage.ListFolders backend path options).2
  | OpCreateFolder path => FileStorage.CreateFolder backend path
  | OpDeleteFolder path => FileStorage.DeleteFolder backend path
  | OpClose => FileStorage.close backend
  end.

(** The assignments to the command that an operation makes before its
    call: [Upsert] alone makes one. *)
Definition assignmentsOf (req : Request) (backendSpecificPath : string) : list Event :=
  match req with
  | ReqUpsert _ => [SetPath backendSpecificPath]
  | _ => []
  end.

(** The backend calls among the events of a computation. *)
Definition callsOf (events : list Event) : list (FileStorage.t * Operation) :=
  omap (λ event, match event with
                 | Call backend op => Some (backend, op)
                 | _ => None
                 end) events.

(** What a resolution tells its caller apart from the backend and its
    name: the local path, or the error. *)
Definition outcome (r : resolution) : string + error :=
  match r with
  | Resolved _ backendSpecificPath _ => inl backendSpecificPath
  | ResolveError err => inr err
  end.

(** ** [ProvideService] *)

(** Modelled from the spec: an entry of [fsConfig.Backends.FS], whose type
    is declared in a file of the package that is not part of the sources;
    "a mount name, an underlying storage location, an allow-list of path
    prefixes, and a declared set of supported operations", under the field
    names [ProvideService] reads. *)
Module FSBackend.
Record t (SupportedOperation : Type) : Type := mk {
  Name : string;
  Path : string;
  AllowedPrefixes : list string;
  SupportedOperations : list SupportedOperation;
}.
Arguments mk {SupportedOperation}.
Arguments Name {SupportedOperation}.
Arguments Path {SupportedOperation}.
Arguments AllowedPrefixes {SupportedOperation}.
Arguments SupportedOperations {SupportedOperation}.
End FSBackend.

(** The errors of [ProvideService]: the error of [blob.OpenBucket], opaque,
    and the one made by [errors.New]. *)
Inductive provideError (BucketError : Type) : Type :=
| OpenBucketError (err : BucketError)
| ErrorsNew (msg : string).
Arguments OpenBucketError {BucketError}.
Arguments ErrorsNew {BucketError}.

(** What [ProvideService] writes to its logger. *)
Inductive provideLog (BucketError : Type) : Type :=
| LogInfo (msg : string)
| LogError (msg path : string) (err : BucketError) (cwd : string).
Arguments LogInfo {BucketError}.
Arguments LogError {BucketError}.

Section ProvideService.
Context {Bucket BucketError SupportedOperation : Type}.

(** [blob.OpenBucket(context.Background(), path)] *)
Variable OpenBucket : string → Bucket + BucketError.

(** [NewCdkBlobStorage(log, bucket, rootFolder, pathFilters,
    supportedOperations)]; the logger is given by its name and the path
    filters by their allowed prefixes. *)
Variable NewCdkBlobStorage :
  string → Bucket → string → list string → list SupportedOperation → FileStorage.t.

(** The [wrapper] around [dummyFileStorage] that [ProvideService] builds. *)
Variable wrappedDummy : FileStorage.t.

(** What [os.Getwd()] returns. *)
Variable currentDir : string.

(** [fmt.Sprintf("file://%s", fsBackend.Path)] *)
Definition bucketPath (fsBackend : FSBackend.t SupportedOperation) : string :=
  "file://" +:+ FSBackend.Path fsBackend.

(** The backend that is registered for [fsBackend] once its bucket is
    open. *)
Definition newBackend (fsBackend : FSBackend.t SupportedOperation) (bucket : Bucket)
    : FileStorage.t :=
  NewCdkBlobStorage ("fileStorage-" +:+ FSBackend.Name fsBackend) bucket ""
    (FSBackend.AllowedPrefixes fsBackend) (FSBackend.SupportedOperations fsBackend).

(** The loop over [fsConfig.Backends.FS], a slice, from the registry built
    so far. *)
Fixpoint provideLoop (FS : list (FSBackend.t SupportedOperation))
    (backendByName : gmap string FileStorage.t)
    : (gmap string FileStorage.t + provideError BucketError)
      * list (provideLog BucketError) :=
  match FS with
  | [] => (inl backendByName, [])
  | fsBackend :: rest =>
      let path := bucketPath fsBackend in
      match OpenBucket path with
      | inr err =>
          (inr (OpenBucketError err),
           [LogError "Failed to initialize grafana ds storage" path err currentDir])
      | inl bucket =>
          match backendByName !! FSBackend.Name fsBackend with
          | Some _ =>
              (inr (ErrorsNew ("Duplicate backend name " +:+ FSBackend.Name fsBackend)), [])
          | None =>
              provideLoop rest
                (<[FSBackend.Name fsBackend := newBackend fsBackend bucket]> backendByName)
          end
      end
  end.

(** [ProvideService], from what [features.IsEnabled(FlagFileStoreApi)]
    answers and the entries [newConfig(cfg.StaticRootPath).Backends.FS]. *)
Definition ProvideService (isEnabled : bool) (FS : list (FSBackend.t SupportedOperation))
    : (service + provideError BucketError) * list (provideLog BucketError) :=
  if negb isEnabled then
    (inl (mkService wrappedDummy ∅), [LogInfo "Filestorage API disabled"])
  else
    match provideLoop FS ∅ with
    | (inl backendByName, logged) => (inl (mkService wrappedDummy backendByName), logged)
    | (inr err, logged) => (inr err, logged)
    end.

End ProvideService.

(** A bucket opener that fails on the storage location [/broken], to run
    [ProvideService] on; a bucket is known by the path it was opened at. *)
Definition openSample (path : string) : string + string :=
  if bool_decide (path = "file:///broken") then inr "no such directory" else inl path.

(** A backend constructor to run [ProvideService] on.  Its backend shows
    all it was built from: it serves an operation when the path has an
    allowed prefix and the operation is a supported one, reports what it
    holds below its root folder with the bucket as content type, and
    refuses with its logger's name as the kind of error. *)
Definition newSample (logger bucket rootFolder : string) (allowedPrefixes : list string)
    (supportedOperations : list string) : FileStorage.t :=
  let serves (operation path : string) : bool :=
    existsb (GoStrings.HasPrefix path) allowedPrefixes &&
    bool_decide (operation ∈ supportedOperations) in
  let held (path : string) : FileMetadata :=
    mkFileMetadata (rootFolder +:+ path) 0 0 bucket ∅ in
  let refused : option error := Some (BackendError logger) in
  FileStorage.mk
    (λ path,
       if serves "get" path then (Some (mkFile None (held path)), None)
       else (None, refused))
    (λ path, if serves "delete" path then None else refused)
    (λ file, if serves "upsert" (Path file) then None else refused)
    (λ path cursor _,
       if serves "list" path
       then (Some (mkListFilesResponse (Some [held path]) cursor), None)
       else (None, refused))
    (λ path _, if serves "list" path then (Some [held path], None) else (None, refused))
    (λ path, if serves "upsert" path then None else refused)
    (λ path, if serves "delete" path then None else refused)
    None.

Definition publicFS : FSBackend.t string :=
  FSBackend.mk "public" "/srv/public" ["/"] ["get"; "list"].

Definition uploadFS : FSBackend.t string :=
  FSBackend.mk "upload" "/srv/upload" ["/"] ["get"; "upsert"].

Definition brokenFS : FSBackend.t string :=
  FSBackend.mk "public" "/broken" ["/"] ["get"].

(** The service that [ProvideService] builds from [publicFS] and
    [uploadFS]. *)
Definition providedService : service :=
  mkService dummyFileStorage
    {[ "public" := newSample "fileStorage-public" "file:///srv/public" ""
                     ["/"] ["get"; "list"];
       "upload" := newSample "fileStorage-upload" "file:///srv/upload" ""
                     ["/"] ["get"; "upsert"] ]}.

(** * Properties *)

(** Opens the operations of [service] down to the pairs they compute. *)
Ltac unfold_operations :=
  unfold Get, Delete, Upsert, ListFiles, ListFolders, CreateFolder, DeleteFolder,
    mbind, M_bind, call, emit.

(** Shows that a list written out is an iteration order of a registry
    written out, of at most two entries. *)
Ltac solve_rangeOrder :=
  unfold rangeOrder; vm_compute; first [reflexivity | apply perm_swap].

(** ** Go's string functions at the one-byte separator [Delimiter] *)

Section DelimiterStrings.
Import GoStrings.
#[local] Arguments Split : simpl never.
#[local] Arguments Contains : simpl never.

Lemma HasPrefix_Delimiter_cons c s :
  HasPrefix (String c s) Delimiter = bool_decide ("/"%char = c).
Proof. simpl. by rewrite andb_true_r. Qed.

Lemma HasPrefix_cons_Delimiter s name :
  HasPrefix (String "/" s) (Delimiter +:+ name) = HasPrefix s name.
Proof. simpl. by destruct name. Qed.

Lemma TrimPrefix_Delimiter_cons s : TrimPrefix (String "/" s) Delimiter = s.
Proof. reflexivity. Qed.

Lemma TrimPrefix_Delimiter_other c s :
  c ≠ "/"%char → TrimPrefix (String c s) Delimiter = String c s.
Proof.
  intros Hc. unfold TrimPrefix. rewrite HasPrefix_Delimiter_cons.
  by rewrite bool_decide_eq_false_2.
Qed.

Lemma Contains_nil : Contains "" Delimiter = false.
Proof. reflexivity. Qed.

Lemma Contains_cons c s :
  Contains (String c s) Delimiter = bool_decide ("/"%char = c) || Contains s Delimiter.
Proof.
  change (Contains (String c s) Delimiter)
    with (HasPrefix (String c s) Delimiter || Contains s Delimiter).
  by rewrite HasPrefix_Delimiter_cons.
Qed.

Lemma Split_nil : Split "" Delimiter = [""].
Proof. reflexivity. Qed.

Lemma Split_cons c s :
  Split (String c s) Delimiter =
    if bool_decide ("/"%char = c) then "" :: Split s Delimiter
    else consHead c (Split s Delimiter).
Proof.
  unfold Split, Delimiter. simpl. by rewrite andb_true_r.
Qed.

Lemma Split_Delimiter_cons s : Split (String "/" s) Delimiter = "" :: Split s Delimiter.
Proof. by rewrite Split_cons. Qed.

Lemma Split_inv s : ∃ seg rest, Split s Delimiter = seg :: rest.
Proof.
  induction s as [|c s (seg & rest & IH)].
  - by exists "", [].
  - rewrite Split_cons, IH. case_bool_decide; simpl; eauto.
Qed.

Lemma Split_no_Delimiter s : Contains s Delimiter = false → Split s Delimiter = [s].
Proof.
  induction s as [|c s IH]; [done|].
  rewrite Contains_cons, Split_cons.
  intros [Hc Hs]%orb_false_iff. rewrite Hc, IH by done. done.
Qed.

Lemma Split_with_Delimiter s :
  Contains s Delimiter = true →
  ∃ seg seg' rest, Split s Delimiter = seg :: seg' :: rest.
Proof.
  induction s as [|c s IH]; [done|].
  rewrite Contains_cons, Split_cons. case_bool_decide; simpl.
  - intros _. destruct (Split_inv s) as (seg & rest & ->). eauto.
  - intros (seg & seg' & rest & ->)%IH. simpl. eauto.
Qed.

Lemma Contains_app_Delimiter a r : Contains (a +:+ Delimiter +:+ r) Delimiter = true.
Proof.
  induction a as [|c a IH].
  - reflexivity.
  - change (String c a +:+ Delimiter +:+ r) with (String c (a +:+ Delimiter +:+ r)).
    rewrite Contains_cons, IH. by rewrite orb_true_r.
Qed.

Lemma Split_app_Delimiter a r :
  Contains a Delimiter = false →
  Split (a +:+ Delimiter +:+ r) Delimiter = a :: Split r Delimiter.
Proof.
  induction a as [|c a IH].
  - intros _. apply Split_Delimiter_cons.
  - rewrite Contains_cons. intros [Hc Ha]%orb_false_iff.
    change (String c a +:+ Delimiter +:+ r) with (String c (a +:+ Delimiter +:+ r)).
    rewrite Split_cons, Hc, IH by done. done.
Qed.

Lemma Split_segments s seg :
  seg ∈ Split s Delimiter → Contains seg Delimiter = false.
Proof.
  revert seg. induction s as [|c s IH]; intros seg.
  - rewrite Split_nil. by intros ->%list_elem_of_singleton.
  - rewrite Split_cons. case_bool_decide as Hc.
    + intros [->|Hin]%elem_of_cons; [done|]. by apply IH.
    + destruct (Split_inv s) as (seg0 & rest & Hs). rewrite Hs in IH |- *. simpl.
      intros [->|Hin]%elem_of_cons.
      * rewrite Contains_cons, bool_decide_eq_false_2 by done.
        apply IH. by left.
      * apply IH. by right.
Qed.

Lemma Join_cons e e' rest :
  Join (e :: e' :: rest) Delimiter = e +:+ Delimiter +:+ Join (e' :: rest) Delimiter.
Proof. reflexivity. Qed.

Lemma Join_Split s : Join (Split s Delimiter) Delimiter = s.
Proof.
  induction s as [|c s IH]; [done|].
  rewrite Split_cons. case_bool_decide as Hc.
  - subst c. destruct (Split_inv s) as (seg & rest & Hs).
    rewrite Hs in IH |- *. rewrite Join_cons, IH. done.
  - destruct (Split_inv s) as (seg & rest & Hs).
    rewrite Hs in IH |- *. simpl consHead.
    destruct rest as [|seg' rest].
    + simpl in *. by subst.
    + rewrite Join_cons in IH |- *. by rewrite <- IH.
Qed.

Lemma Split_Join e rest :
  Forall (λ seg, Contains seg Delimiter = false) (e :: rest) →
  Split (Join (e :: rest) Delimiter) Delimiter = e :: rest.
Proof.
  revert e. induction rest as [|e' rest IH]; intros e Hall.
  - simpl. apply Split_no_Delimiter. by inversion Hall.
  - rewrite Join_cons. inversion Hall as [|? ? He Hrest]; subst.
    rewrite Split_app_Delimiter by done. by rewrite IH.
Qed.

(** A delimiter-free prefix of a string is a prefix of its first segment. *)
Lemma HasPrefix_first_segment s name seg rest :
  Contains name Delimiter = false →
  HasPrefix s name = true →
  Split s Delimiter = seg :: rest →
  HasPrefix seg name = true.
Proof.
  revert s seg rest. induction name as [|c name IH]; intros s seg rest Hname Hpre Hs.
  - by destruct seg.
  - destruct s as [|d s]; [done|].
    simpl in Hpre. apply andb_true_iff in Hpre as [Hcd Hpre].
    apply bool_decide_eq_true in Hcd. subst d.
    rewrite Contains_cons in Hname. apply orb_false_iff in Hname as [Hc Hname].
    rewrite Split_cons, Hc in Hs.
    destruct (Split_inv s) as (seg0 & rest0 & Hs0). rewrite Hs0 in Hs.
    simpl in Hs. injection Hs as <- <-.
    simpl. rewrite bool_decide_eq_true_2 by done. simpl.
    by eapply IH.
Qed.

End DelimiterStrings.

(** ** [removeBackendNamePrefix], by the segments of the trimmed path *)

Section RemoveBackendNamePrefix.
Import GoStrings.
#[local] Arguments Split : simpl never.
#[local] Arguments Contains : simpl never.

Lemma Contains_of_Split t seg seg' rest :
  Split t Delimiter = seg :: seg' :: rest → Contains t Delimiter = true.
Proof.
  intros Hs. destruct (Contains t Delimiter) eqn:Hc; [done|].
  rewrite (Split_no_Delimiter t Hc) in Hs. done.
Qed.

(** One segment only: the path names the root of the storage. *)
Lemma removeBackendNamePrefix_single path seg :
  Split (TrimPrefix path Delimiter) Delimiter = [seg] →
  removeBackendNamePrefix path = Delimiter.
Proof.
  intros Hs. unfold removeBackendNamePrefix.
  destruct (bool_decide _ || bool_decide _); [done|].
  destruct (Contains (TrimPrefix path Delimiter) Delimiter) eqn:Hc; [|done].
  destruct (Split_with_Delimiter _ Hc) as (? & ? & ? & Hs'). congruence.
Qed.

(** A segment and a trailing delimiter: the root of the storage again. *)
Lemma removeBackendNamePrefix_trailing path seg :
  Split (TrimPrefix path Delimiter) Delimiter = [seg; ""] →
  removeBackendNamePrefix path = Delimiter.
Proof.
  intros Hs. unfold removeBackendNamePrefix.
  destruct (bool_decide _ || bool_decide _); [done|].
  destruct (negb _); [done|].
  rewrite Hs. done.
Qed.

(** Otherwise the first segment is blanked and the rest joined again. *)
Lemma removeBackendNamePrefix_segments path seg seg' rest :
  Split (TrimPrefix path Delimiter) Delimiter = seg :: seg' :: rest →
  seg' :: rest ≠ [""] →
  removeBackendNamePrefix path = Delimiter +:+ Join (seg' :: rest) Delimiter.
Proof.
  intros Hs Hne. unfold removeBackendNamePrefix.
  set (t := TrimPrefix path Delimiter) in *.
  case_bool_decide as Ht; simpl.
  { rewrite Ht in Hs. by injection Hs as <- <- <-. }
  case_bool_decide as Ht'; simpl.
  { by rewrite Ht' in Hs. }
  rewrite (Contains_of_Split _ _ _ _ Hs). simpl. rewrite Hs. simpl.
  destruct rest as [|seg'' rest]; simpl.
  - case_bool_decide as H1; simpl.
    + injection H1 as ->. done.
    + done.
  - done.
Qed.

Lemma removeBackendNamePrefix_cases path :
  removeBackendNamePrefix path = Delimiter ∨
  ∃ seg seg' rest,
    Split (TrimPrefix path Delimiter) Delimiter = seg :: seg' :: rest ∧
    removeBackendNamePrefix path = Delimiter +:+ Join (seg' :: rest) Delimiter.
Proof.
  destruct (Split_inv (TrimPrefix path Delimiter)) as (seg & rest & Hs).
  destruct rest as [|seg' rest].
  - left. exact (removeBackendNamePrefix_single _ _ Hs).
  - destruct (decide (seg' :: rest = [""])) as [Heq|Hne].
    + left. rewrite Heq in Hs. exact (removeBackendNamePrefix_trailing _ _ Hs).
    + right. exists seg, seg', rest. split; [done|].
      exact (removeBackendNamePrefix_segments _ _ _ _ Hs Hne).
Qed.

Lemma removeBackendNamePrefix_HasPrefix path :
  HasPrefix (removeBackendNamePrefix path) Delimiter = true.
Proof.
  destruct (removeBackendNamePrefix_cases path) as [->|(? & ? & ? & _ & ->)]; done.
Qed.

(** The path [/m/rest] of a delimiter-free name [m] loses exactly [/m]. *)
Lemma removeBackendNamePrefix_under m rest :
  Contains m Delimiter = false →
  rest ≠ "" →
  removeBackendNamePrefix (Delimiter +:+ m +:+ Delimiter +:+ rest) = Delimiter +:+ rest.
Proof.
  intros Hm Hrest.
  destruct (Split_inv rest) as (seg' & segs & Hs).
  rewrite (removeBackendNamePrefix_segments _ m seg' segs).
  - by rewrite <- Hs, Join_Split.
  - change (Delimiter +:+ m +:+ Delimiter +:+ rest)
      with (String "/" (m +:+ Delimiter +:+ rest)).
    rewrite TrimPrefix_Delimiter_cons, Split_app_Delimiter by done. by rewrite Hs.
  - intros Heq. rewrite Heq in Hs. apply Hrest.
    rewrite <- (Join_Split rest), Hs. done.
Qed.

Lemma removeBackendNamePrefix_bare m :
  Contains m Delimiter = false →
  removeBackendNamePrefix (Delimiter +:+ m) = Delimiter.
Proof.
  intros Hm. apply (removeBackendNamePrefix_single _ m).
  change (Delimiter +:+ m) with (String "/" m).
  rewrite TrimPrefix_Delimiter_cons. by apply Split_no_Delimiter.
Qed.

Lemma removeBackendNamePrefix_bare_trailing m :
  Contains m Delimiter = false →
  removeBackendNamePrefix (Delimiter +:+ m +:+ Delimiter) = Delimiter.
Proof.
  intros Hm. apply (removeBackendNamePrefix_trailing _ m).
  change (Delimiter +:+ m +:+ Delimiter) with (String "/" (m +:+ Delimiter +:+ "")).
  rewrite TrimPrefix_Delimiter_cons. by rewrite Split_app_Delimiter.
Qed.

End RemoveBackendNamePrefix.

(** ** The loop of [getBackend] *)

Section Resolution.
Implicit Types (b : service) (order : list (string * FileStorage.t)).
Implicit Types (path name : string) (backend : FileStorage.t).

Lemma HasPrefix_app s r : GoStrings.HasPrefix (s +:+ r) s = true.
Proof.
  induction s as [|c s IH]; [done|].
  simpl. by rewrite bool_decide_eq_true_2.
Qed.

Lemma HasPrefix_refl s : GoStrings.HasPrefix s s = true.
Proof.
  induction s as [|c s IH]; [done|].
  simpl. by rewrite bool_decide_eq_true_2.
Qed.

(** A path that continues [/name] matches [name]. *)
Lemma matchesBackend_app name r :
  matchesBackend (Delimiter +:+ name +:+ r) name = true.
Proof.
  unfold matchesBackend. apply orb_true_iff. left.
  apply (HasPrefix_app (Delimiter +:+ name) r).
Qed.

Lemma matchesBackend_bare name : matchesBackend (Delimiter +:+ name) name = true.
Proof. unfold matchesBackend. apply orb_true_iff. left. apply HasPrefix_refl. Qed.

Lemma getBackendLoop_matching order path :
  getBackendLoop order path = getBackendLoop (matching path order) path.
Proof.
  unfold matching. induction order as [|[name backend] order IH]; [done|].
  rewrite filter_cons. simpl. destruct (matchesBackend path name) eqn:Hm.
  - rewrite decide_True by done. simpl. by rewrite Hm.
  - rewrite decide_False by done. exact IH.
Qed.

Lemma getBackendLoop_None order path :
  getBackendLoop order path = None ↔
  Forall (λ entry, matchesBackend path entry.1 = false) order.
Proof.
  induction order as [|[name backend] order IH]; simpl.
  - split; [constructor|done].
  - rewrite Forall_cons. simpl. destruct (matchesBackend path name).
    + split; [|by intros [? _]]. by destruct (validatePath _).
    + rewrite IH. split; [by split|by intros [_ ?]].
Qed.

Lemma getBackendLoop_Some order path r :
  getBackendLoop order path = Some r →
  ∃ name backend,
    (name, backend) ∈ order ∧ matchesBackend path name = true ∧
    r = matched path name backend.
Proof.
  induction order as [|[name backend] order IH]; simpl; [done|].
  destruct (matchesBackend path name) eqn:Hm.
  - intros Hr. exists name, backend. split_and!; [by left|done|].
    unfold matched. destruct (validatePath _); congruence.
  - intros Hr. destruct (IH Hr) as (name' & backend' & Hin & ? & ?).
    exists name', backend'. split_and!; [by right|done..].
Qed.

Lemma getBackendLoop_is_Some order path name backend :
  (name, backend) ∈ order → matchesBackend path name = true →
  is_Some (getBackendLoop order path).
Proof.
  intros Hin Hm. destruct (getBackendLoop order path) eqn:Hl; [done|].
  apply getBackendLoop_None in Hl. rewrite Forall_forall in Hl.
  specialize (Hl _ Hin). simpl in Hl. congruence.
Qed.

Lemma rangeOrder_lookup (m : gmap string FileStorage.t) order name backend :
  rangeOrder m order → (name, backend) ∈ order ↔ m !! name = Some backend.
Proof. unfold rangeOrder. intros ->. apply elem_of_map_to_list. Qed.

Lemma rangeOrder_Forall (m : gmap string FileStorage.t) order (P : string → Prop) :
  rangeOrder m order → map_Forall (λ name _, P name) m →
  Forall (λ entry, P entry.1) order.
Proof.
  intros Hr HP. apply Forall_forall. intros [name backend] Hin.
  apply (rangeOrder_lookup _ _ _ _ Hr) in Hin. exact (HP _ _ Hin).
Qed.

Lemma getBackend_matched b order path r :
  getBackendLoop order path = Some r → getBackend b order path = (r, []).
Proof. unfold getBackend. by intros ->. Qed.

Lemma getBackend_unmatched b order path :
  getBackendLoop order path = None →
  getBackend b order path =
    match validatePath path with
    | Some err => (ResolveError err, [])
    | None => (Resolved (dummyBackend b) path "", [LogWarn "Backend not found" path])
    end.
Proof. unfold getBackend. intros ->. by destruct (validatePath path). Qed.

Lemma getBackend_error_trace b order path err t :
  getBackend b order path = (ResolveError err, t) → t = [].
Proof.
  unfold getBackend. destruct (getBackendLoop order path).
  - by intros [= _ <-].
  - destruct (validatePath path); [by intros [= _ <-]|done].
Qed.

(** A failed resolution ends every public operation at once. *)
Lemma serve_short_circuit b order req err t :
  getBackend b order (requestPath req) = (ResolveError err, t) →
  serve b order req = (Some err, []).
Proof.
  intros Hg. pose proof (getBackend_error_trace _ _ _ _ _ Hg) as ->.
  destruct req; simpl in *; unfold_operations; by rewrite Hg.
Qed.

Lemma validatePath_traversal path :
  hasTraversalSegment path = true → validatePath path = Some InvalidPath.
Proof. unfold validatePath. intros ->. by rewrite orb_true_r. Qed.

End Resolution.

(** ** Traversal segments and the mount prefix *)

Section Traversal.
Import GoStrings.
#[local] Arguments Split : simpl never.
#[local] Arguments Contains : simpl never.

(** Stripping the prefix of a proper mount name keeps every [..] segment:
    only the first segment goes, and a proper name cannot have matched it. *)
Lemma traversal_survives path name :
  hasTraversalSegment path = true →
  matchesBackend path name = true →
  properMountName name = true →
  hasTraversalSegment (removeBackendNamePrefix path) = true.
Proof.
  unfold hasTraversalSegment, properMountName, matchesBackend.
  rewrite !bool_decide_eq_true, andb_true_iff, !negb_true_iff, orb_true_iff.
  intros Hin [Hpre|Heq] [Hc Hdd].
  - destruct path as [|c t]; [done|].
    change (Delimiter +:+ name) with (String "/" name) in Hpre.
    simpl in Hpre. apply andb_true_iff in Hpre as [Hslash Hpre].
    apply bool_decide_eq_true in Hslash. subst c.
    rewrite Split_Delimiter_cons in Hin.
    apply elem_of_cons in Hin as [?|Hin]; [done|].
    destruct (Split_inv t) as (seg & rest & Hs).
    pose proof (HasPrefix_first_segment _ _ _ _ Hc Hpre Hs) as Hseg.
    assert (Hsegs : Forall (λ s, Contains s Delimiter = false) (seg :: rest)).
    { apply Forall_forall. intros s Hsin. apply (Split_segments t). by rewrite Hs. }
    rewrite Hs in Hin. apply elem_of_cons in Hin as [<-|Hin]; [congruence|].
    destruct rest as [|seg' rest]; [by apply elem_of_nil in Hin|].
    rewrite (removeBackendNamePrefix_segments _ seg seg' rest).
    + change (Delimiter +:+ Join (seg' :: rest) Delimiter)
        with (String "/" (Join (seg' :: rest) Delimiter)).
      rewrite Split_Delimiter_cons, Split_Join by (by inversion Hsegs).
      by right.
    + by rewrite TrimPrefix_Delimiter_cons.
    + intros Heq. rewrite Heq in Hin. by apply list_elem_of_singleton in Hin.
  - apply bool_decide_eq_true in Heq. subst name.
    rewrite (Split_no_Delimiter _ Hc) in Hin.
    apply list_elem_of_singleton in Hin. by subst path.
Qed.

End Traversal.

(** ** Path validation short-circuits the router *)

(** C1 (as amended).  A resolution that fails ends every public operation
    with its error and without a single event: no backend method is called
    and nothing is written.  And when no registered mount name contains the
    delimiter or is a prefix of [..] (the empty name, [.] and [..]), every
    path with a [..] traversal segment is resolved to the error InvalidPath,
    whether or not a mount name matched it. *)
Theorem getBackend_rejects_traversal :
  (∀ b order req err t,
     getBackend b order (requestPath req) = (ResolveError err, t) →
     serve b order req = (Some err, [])) ∧
  (∀ b order path,
     rangeOrder (backendByName b) order →
     map_Forall (λ name _, properMountName name = true) (backendByName b) →
     hasTraversalSegment path = true →
     getBackend b order path = (ResolveError InvalidPath, [])).
Proof.
  split; [exact serve_short_circuit|].
  intros b order path Hr Hproper Ht.
  destruct (getBackendLoop order path) as [r|] eqn:Hl.
  - rewrite (getBackend_matched _ _ _ _ Hl).
    destruct (getBackendLoop_Some _ _ _ Hl) as (name & backend & Hin & Hm & ->).
    unfold matched. rewrite validatePath_traversal; [done|].
    apply (traversal_survives _ name); [done..|].
    apply (rangeOrder_lookup _ _ _ _ Hr) in Hin. exact (Hproper _ _ Hin).
  - rewrite getBackend_unmatched by done.
    by rewrite validatePath_traversal.
Qed.

(** The path [/mountA/../x] under the mount [mountA]: rejected, and [Get]
    on it calls nothing. *)
Lemma getBackend_rejects_traversal_witness :
  getBackend mountAService [("mountA", healthyBackend)] "/mountA/../x"
    = (ResolveError InvalidPath, []) ∧
  serve mountAService [("mountA", healthyBackend)] (ReqGet "/mountA/../x")
    = (Some InvalidPath, []).
Proof.
  assert (Hg : getBackend mountAService [("mountA", healthyBackend)] "/mountA/../x"
               = (ResolveError InvalidPath, [])).
  { apply (proj2 getBackend_rejects_traversal mountAService).
    - solve_rangeOrder.
    - apply map_Forall_singleton. reflexivity.
    - reflexivity. }
  split; [exact Hg|].
  exact (proj1 getBackend_rejects_traversal mountAService _
           (ReqGet "/mountA/../x") InvalidPath [] Hg).
Defined.

(** C1 (counterexample).  Under a mount named [.] the path [/../x] has a
    [..] segment, matches the mount by prefix, loses its first segment and
    is resolved without error; [Get] then calls the backend on [/x]. *)
Lemma traversal_accepted_under_dot_mount :
  hasTraversalSegment "/../x" = true ∧
  rangeOrder (backendByName dotService) [(".", healthyBackend)] ∧
  getBackend dotService [(".", healthyBackend)] "/../x"
    = (Resolved healthyBackend "/x" ".", []) ∧
  serve dotService [(".", healthyBackend)] (ReqGet "/../x")
    = (None, [Call healthyBackend (OpGet "/x")]).
Proof.
  split_and!; [reflexivity| |reflexivity..].
  solve_rangeOrder.
Qed.

(** ** Stripping and re-adding the mount prefix *)

(** C2.  For a non-empty, delimiter-free mount name [m] and a path
    [p = /m/rest] below it that is not the root of the mount ([rest] is not
    empty), [p] matches [m] and joining [m] onto the stripped path gives [p]
    back. *)
Theorem Join_removeBackendNamePrefix_roundtrip m rest :
  m ≠ "" →
  GoStrings.Contains m Delimiter = false →
  rest ≠ "" →
  matchesBackend (Delimiter +:+ m +:+ Delimiter +:+ rest) m = true ∧
  Join m (removeBackendNamePrefix (Delimiter +:+ m +:+ Delimiter +:+ rest))
    = Delimiter +:+ m +:+ Delimiter +:+ rest.
Proof.
  intros Hm Hc Hrest. split.
  - apply matchesBackend_app.
  - rewrite removeBackendNamePrefix_under by done.
    unfold Join. by rewrite bool_decide_eq_false_2.
Qed.

(** The file [/mountA/dir/x.json] under the mount [mountA]. *)
Lemma Join_removeBackendNamePrefix_roundtrip_witness :
  matchesBackend "/mountA/dir/x.json" "mountA" = true ∧
  Join "mountA" (removeBackendNamePrefix "/mountA/dir/x.json") = "/mountA/dir/x.json".
Proof.
  apply (Join_removeBackendNamePrefix_roundtrip "mountA" "dir/x.json");
    [discriminate|reflexivity|discriminate].
Defined.

(** C5.  For a delimiter-free mount name [m], the paths [/m] and [/m/] and
    the bare delimiter are all stripped to the root delimiter, and with [m]
    registered the first two are resolved, without error, to a registered
    backend and the root delimiter as its local path. *)
Theorem removeBackendNamePrefix_degenerate b order m backend :
  GoStrings.Contains m Delimiter = false →
  rangeOrder (backendByName b) order →
  backendByName b !! m = Some backend →
  removeBackendNamePrefix (Delimiter +:+ m) = Delimiter ∧
  removeBackendNamePrefix (Delimiter +:+ m +:+ Delimiter) = Delimiter ∧
  removeBackendNamePrefix Delimiter = Delimiter ∧
  ∀ path, path = Delimiter +:+ m ∨ path = Delimiter +:+ m +:+ Delimiter →
    ∃ name' backend',
      backendByName b !! name' = Some backend' ∧
      getBackend b order path = (Resolved backend' Delimiter name', []).
Proof.
  intros Hc Hr Hm.
  pose proof (removeBackendNamePrefix_bare m Hc) as Hbare.
  pose proof (removeBackendNamePrefix_bare_trailing m Hc) as Htrail.
  split_and!; [done..|].
  intros path Hpath.
  assert (Hstrip : removeBackendNamePrefix path = Delimiter) by (by destruct Hpath as [->| ->]).
  assert (Hmatch : matchesBackend path m = true).
  { destruct Hpath as [->| ->];
      [apply matchesBackend_bare|apply matchesBackend_app]. }
  apply (rangeOrder_lookup _ _ _ _ Hr) in Hm.
  destruct (getBackendLoop_is_Some _ _ _ _ Hm Hmatch) as [r Hl].
  destruct (getBackendLoop_Some _ _ _ Hl) as (name' & backend' & Hin & _ & ->).
  exists name', backend'. split; [by apply (rangeOrder_lookup _ _ _ _ Hr)|].
  rewrite (getBackend_matched _ _ _ _ Hl). unfold matched. by rewrite Hstrip.
Qed.

(** The mount [mountA] and its root, written [/mountA] and [/mountA/]. *)
Lemma removeBackendNamePrefix_degenerate_witness :
  removeBackendNamePrefix "/mountA" = "/" ∧
  removeBackendNamePrefix "/mountA/" = "/" ∧
  removeBackendNamePrefix "/" = "/" ∧
  ∀ path, path = "/mountA" ∨ path = "/mountA/" →
    ∃ name' backend',
      backendByName mountAService !! name' = Some backend' ∧
      getBackend mountAService [("mountA", healthyBackend)] path
        = (Resolved backend' "/" name', []).
Proof.
  apply (removeBackendNamePrefix_degenerate mountAService
           [("mountA", healthyBackend)] "mountA" healthyBackend).
  - reflexivity.
  - solve_rangeOrder.
  - reflexivity.
Defined.

(** ** The fallback to the dummy backend *)

(** C3.  When no registered mount name matches the path and the path
    itself passes [validatePath], resolution returns no error: it returns
    the dummy backend, the path unchanged as the local path and the empty
    mount name, and its only effect is the warning in the log. *)
Theorem getBackend_no_mount b order path :
  rangeOrder (backendByName b) order →
  map_Forall (λ name _, matchesBackend path name = false) (backendByName b) →
  validatePath path = None →
  getBackend b order path
    = (Resolved (dummyBackend b) path "", [LogWarn "Backend not found" path]).
Proof.
  intros Hr Hnone Hvalid.
  rewrite getBackend_unmatched.
  - by rewrite Hvalid.
  - apply getBackendLoop_None.
    exact (rangeOrder_Forall _ _ (λ name, matchesBackend path name = false) Hr Hnone).
Qed.

(** The path [/unknown-mount/x] with only [mountA] registered. *)
Lemma getBackend_no_mount_witness :
  getBackend mountAService [("mountA", healthyBackend)] "/unknown-mount/x"
    = (Resolved dummyFileStorage "/unknown-mount/x" "",
       [LogWarn "Backend not found" "/unknown-mount/x"]).
Proof.
  apply (getBackend_no_mount mountAService [("mountA", healthyBackend)] "/unknown-mount/x").
  - solve_rangeOrder.
  - apply map_Forall_singleton. reflexivity.
  - reflexivity.
Defined.

(** ** [close] *)

(** [close] calls [close] on every backend, in the order of the iteration,
    and returns what the last of these calls returned. *)
Lemma closeLoop_spec order lastError :
  closeLoop order lastError =
    (match last order with
     | Some entry => FileStorage.close entry.2
     | None => lastError
     end,
     (λ entry, Call entry.2 OpClose) <$> order).
Proof.
  revert lastError. induction order as [|[name backend] order IH]; intros lastError.
  - reflexivity.
  - simpl closeLoop. unfold mbind, M_bind, call. rewrite IH.
    rewrite last_cons. simpl. by destruct (last order).
Qed.

(** C4 (the code at the failing input).  The registry holds [a], whose
    [close] fails, and [b], whose [close] succeeds.  When the iteration
    visits [a] before [b], both backends are closed and [close] returns nil:
    the error of [a] is overwritten by the nil of [b]. *)
Theorem close_drops_earlier_error :
  rangeOrder (backendByName closingService)
    [("a", failingBackend); ("b", healthyBackend)] ∧
  FileStorage.close failingBackend = Some (BackendError "close failed") ∧
  close closingService [("a", failingBackend); ("b", healthyBackend)]
    = (None, [Call failingBackend OpClose; Call healthyBackend OpClose]).
Proof.
  split_and!; [|reflexivity..].
  solve_rangeOrder.
Qed.

(** In the other order the same registry reports the error. *)
Example close_keeps_later_error :
  rangeOrder (backendByName closingService)
    [("b", healthyBackend); ("a", failingBackend)] ∧
  close closingService [("b", healthyBackend); ("a", failingBackend)]
    = (Some (BackendError "close failed"),
       [Call healthyBackend OpClose; Call failingBackend OpClose]).
Proof.
  split; [|reflexivity].
  solve_rangeOrder.
Qed.

(** ** [Upsert] *)

(** C6.  When the path of the command matches a registered mount and is
    resolved to [backend] and the local path [local], [Upsert] assigns
    [local] to the command's Path once, then calls the backend's [Upsert]
    with the command whose Path is [local], the path stripped of its first
    segment, and returns the backend's error. *)
Theorem Upsert_rewrites_Path b order file backend local name :
  rangeOrder (backendByName b) order →
  getBackendLoop order (Path file) = Some (Resolved backend local name) →
  backendByName b !! name = Some backend ∧
  local = removeBackendNamePrefix (Path file) ∧
  Path (withPath local file) = local ∧
  Upsert b order file =
    ((withPath local file, FileStorage.Upsert backend (withPath local file)),
     [SetPath local; Call backend (OpUpsert (withPath local file))]).
Proof.
  intros Hr Hl.
  destruct (getBackendLoop_Some _ _ _ Hl) as (name' & backend' & Hin & _ & Hres).
  unfold matched in Hres. destruct (validatePath _); [done|].
  injection Hres as -> -> ->.
  split_and!; [by apply (rangeOrder_lookup _ _ _ _ Hr)|done..|].
  unfold_operations. by rewrite (getBackend_matched _ _ _ _ Hl).
Qed.

(** An upsert of [/mountA/dir/x.json] under the mount [mountA]. *)
Lemma Upsert_rewrites_Path_witness :
  backendByName mountAService !! "mountA" = Some healthyBackend ∧
  "/dir/x.json" = removeBackendNamePrefix "/mountA/dir/x.json" ∧
  Path (withPath "/dir/x.json" (mkUpsertFileCommand "/mountA/dir/x.json" None ∅))
    = "/dir/x.json" ∧
  Upsert mountAService [("mountA", healthyBackend)]
      (mkUpsertFileCommand "/mountA/dir/x.json" None ∅) =
    ((withPath "/dir/x.json" (mkUpsertFileCommand "/mountA/dir/x.json" None ∅),
      FileStorage.Upsert healthyBackend
        (withPath "/dir/x.json" (mkUpsertFileCommand "/mountA/dir/x.json" None ∅))),
     [SetPath "/dir/x.json";
      Call healthyBackend
        (OpUpsert (withPath "/dir/x.json"
                     (mkUpsertFileCommand "/mountA/dir/x.json" None ∅)))]).
Proof.
  apply (Upsert_rewrites_Path mountAService [("mountA", healthyBackend)]
           (mkUpsertFileCommand "/mountA/dir/x.json" None ∅)
           healthyBackend "/dir/x.json" "mountA").
  - solve_rangeOrder.
  - reflexivity.
Defined.

(** C9.  When the resolution of the command's path fails, [Upsert] returns
    the error and the command as it was given: nothing is assigned to its
    Path and no backend is called. *)
Theorem Upsert_resolution_failure b order file err t :
  getBackend b order (Path file) = (ResolveError err, t) →
  Upsert b order file = ((file, Some err), []).
Proof.
  intros Hg. pose proof (getBackend_error_trace _ _ _ _ _ Hg) as ->.
  unfold_operations. by rewrite Hg.
Qed.

(** An upsert of [/mountA/../x], which fails validation. *)
Lemma Upsert_resolution_failure_witness :
  Upsert mountAService [("mountA", healthyBackend)]
      (mkUpsertFileCommand "/mountA/../x" None ∅)
    = ((mkUpsertFileCommand "/mountA/../x" None ∅, Some InvalidPath), []).
Proof.
  apply (Upsert_resolution_failure mountAService [("mountA", healthyBackend)]
           (mkUpsertFileCommand "/mountA/../x" None ∅) InvalidPath []).
  reflexivity.
Defined.

(** ** [ListFiles] *)

Lemma rejoinLoop_from backendName seen todo :
  foldl (rejoinAt backendName) (seen ++ todo) (seq (length seen) (length todo))
    = seen ++ (rejoin backendName <$> todo).
Proof.
  revert seen. induction todo as [|x todo IH]; intros seen; [done|].
  simpl. unfold rejoinAt at 2.
  rewrite list_lookup_middle by done.
  rewrite insert_app_r_alt, Nat.sub_diag by done. simpl.
  rewrite (cons_middle _ seen), !(assoc_L (++)).
  replace (S (length seen)) with (length (seen ++ [rejoin backendName x]))
    by (rewrite length_app; simpl; lia).
  rewrite IH. by rewrite <- (assoc_L (++)).
Qed.

(** The index loop rewrites every entry, each in its place. *)
Lemma rejoinLoop_fmap backendName xs :
  rejoinLoop backendName xs = rejoin backendName <$> xs.
Proof. exact (rejoinLoop_from backendName [] xs). Qed.

(** C7.  When the path is resolved to a backend and mount name [name], and
    the backend answers with a response that has entries, [ListFiles] calls
    the backend once, with the local path and with the cursor and options
    it was given; it returns the backend's error and a response with the
    backend's own cursor and as many entries in the same order.  Entry [i]
    has as its FullPath [Join name] of the FullPath of the backend's entry
    [i], which for a non-empty mount name and a FullPath that begins with
    the delimiter is the delimiter, the name and that FullPath; its size,
    modification time, content type and properties are those of the
    backend's entry. *)
Theorem ListFiles_rewrites_FullPath
    b order path cursor options backend local name t resp err files :
  getBackend b order path = (Resolved backend local name, t) →
  FileStorage.ListFiles backend local cursor options = (Some resp, err) →
  Files resp = Some files →
  ∃ resp' files',
    ListFiles b order path cursor options =
      ((Some resp', err), t ++ [Call backend (OpListFiles local cursor options)]) ∧
    Files resp' = Some files' ∧
    NextPage resp' = NextPage resp ∧
    length files' = length files ∧
    ∀ i file, files !! i = Some file →
      ∃ file',
        files' !! i = Some file' ∧
        FullPath file' = Join name (FullPath file) ∧
        (name ≠ "" → GoStrings.HasPrefix (FullPath file) Delimiter = true →
         FullPath file' = Delimiter +:+ name +:+ FullPath file) ∧
        Size file' = Size file ∧
        Modified file' = Modified file ∧
        MimeType file' = MimeType file ∧
        Properties file' = Properties file.
Proof.
  intros Hg Hb Hfiles.
  exists (mkListFilesResponse (Some (rejoin name <$> files)) (NextPage resp)),
    (rejoin name <$> files).
  split_and!; [|done|done|apply length_fmap|].
  - unfold_operations. rewrite Hg, Hb, Hfiles.
    by rewrite rejoinLoop_fmap.
  - intros i file Hi. exists (rejoin name file).
    split_and!; [by rewrite list_lookup_fmap, Hi|done| |done..].
    intros Hname _. simpl. unfold Join. by rewrite bool_decide_eq_false_2.
Qed.

(** A listing of [/mountA/dir] on a backend that holds [/x.json] and [/y.json]. *)
Lemma ListFiles_rewrites_FullPath_witness :
  ∃ resp' files',
    ListFiles mountAService [("mountA", healthyBackend)] "/mountA/dir"
        (Some (mkPaging "after-w")) None =
      ((Some resp', None),
       [] ++ [Call healthyBackend (OpListFiles "/dir" (Some (mkPaging "after-w")) None)]) ∧
    Files resp' = Some files' ∧
    NextPage resp' = NextPage (mkListFilesResponse
                                 (Some [metadataAt "/x.json"; metadataAt "/y.json"])
                                 (Some (mkPaging "after-w"))) ∧
    length files' = length [metadataAt "/x.json"; metadataAt "/y.json"] ∧
    ∀ i file, [metadataAt "/x.json"; metadataAt "/y.json"] !! i = Some file →
      ∃ file',
        files' !! i = Some file' ∧
        FullPath file' = Join "mountA" (FullPath file) ∧
        ("mountA" ≠ "" → GoStrings.HasPrefix (FullPath file) Delimiter = true →
         FullPath file' = Delimiter +:+ "mountA" +:+ FullPath file) ∧
        Size file' = Size file ∧
        Modified file' = Modified file ∧
        MimeType file' = MimeType file ∧
        Properties file' = Properties file.
Proof.
  apply (ListFiles_rewrites_FullPath mountAService [("mountA", healthyBackend)]
           "/mountA/dir" (Some (mkPaging "after-w")) None healthyBackend "/dir" "mountA" []
           (mkListFilesResponse (Some [metadataAt "/x.json"; metadataAt "/y.json"])
              (Some (mkPaging "after-w")))
           None [metadataAt "/x.json"; metadataAt "/y.json"]);
    reflexivity.
Defined.

(** The example of the specification, run. *)
Example ListFiles_mountA :
  ListFiles mountAService [("mountA", healthyBackend)] "/mountA/dir"
      (Some (mkPaging "after-w")) None =
    ((Some (mkListFilesResponse
              (Some [metadataAt "/mountA/x.json"; metadataAt "/mountA/y.json"])
              (Some (mkPaging "after-w"))), None),
     [Call healthyBackend (OpListFiles "/dir" (Some (mkPaging "after-w")) None)]).
Proof. reflexivity. Qed.

(** ** The iteration order of the registry *)

Lemma matching_rangeOrder (m : gmap string FileStorage.t) order path :
  rangeOrder m order → matching path order ≡ₚ matching path (map_to_list m).
Proof. unfold rangeOrder, matching. by intros ->. Qed.

Lemma short_Permutation {A} (l1 l2 : list A) :
  (length l1 ≤ 1)%nat → l1 ≡ₚ l2 → l2 = l1.
Proof.
  destruct l1 as [|x [|y l1]]; simpl; intros Hlen Hperm; [| |lia].
  - by apply Permutation_nil.
  - symmetry in Hperm. by apply Permutation_singleton_r.
Qed.

(** C8 (as amended).  For a fixed registry and a path that at most one
    registered mount name matches, resolution gives the same backend, local
    path, mount name, error and log in every iteration order of the
    registry. *)
Theorem getBackend_single_match_deterministic b order1 order2 path :
  rangeOrder (backendByName b) order1 →
  rangeOrder (backendByName b) order2 →
  (length (matching path (map_to_list (backendByName b))) ≤ 1)%nat →
  getBackend b order1 path = getBackend b order2 path.
Proof.
  intros Hr1 Hr2 Hlen.
  pose proof (matching_rangeOrder _ _ path Hr1) as H1.
  pose proof (matching_rangeOrder _ _ path Hr2) as H2.
  symmetry in H1, H2.
  apply (short_Permutation _ _ Hlen) in H1, H2.
  unfold getBackend.
  rewrite (getBackendLoop_matching order1), (getBackendLoop_matching order2).
  by rewrite H1, H2.
Qed.

(** The path [/db/x], which only [db] matches of the mounts [db] and [db2]. *)
Lemma getBackend_single_match_deterministic_witness :
  getBackend overlappingService [("db", healthyBackend); ("db2", failingBackend)] "/db/x"
  = getBackend overlappingService [("db2", failingBackend); ("db", healthyBackend)] "/db/x".
Proof.
  apply (getBackend_single_match_deterministic overlappingService
           [("db", healthyBackend); ("db2", failingBackend)]
           [("db2", failingBackend); ("db", healthyBackend)] "/db/x").
  - solve_rangeOrder.
  - solve_rangeOrder.
  - vm_compute. lia.
Defined.

(** C8 (counterexample).  With the mounts [db] and [db2] registered, the
    path [/db2/x] matches both names, and two iteration orders of the same
    registry resolve it to two different backends and mount names. *)
Lemma getBackend_depends_on_order :
  rangeOrder (backendByName overlappingService)
    [("db", healthyBackend); ("db2", failingBackend)] ∧
  rangeOrder (backendByName overlappingService)
    [("db2", failingBackend); ("db", healthyBackend)] ∧
  getBackend overlappingService [("db", healthyBackend); ("db2", failingBackend)] "/db2/x"
    = (Resolved healthyBackend "/x" "db", []) ∧
  getBackend overlappingService [("db2", failingBackend); ("db", healthyBackend)] "/db2/x"
    = (Resolved failingBackend "/x" "db2", []) ∧
  Resolved healthyBackend "/x" "db" ≠ Resolved failingBackend "/x" "db2".
Proof.
  split_and!; [| |reflexivity|reflexivity|discriminate];
    solve_rangeOrder.
Qed.

(** ** What a backend is handed *)

(** After a successful resolution an operation adds to the events of the
    resolution the assignment of [Upsert], if any, and one call of the
    resolved backend, on the local path. *)
Lemma serve_resolved_events b order req backend local name t event :
  getBackend b order (requestPath req) = (Resolved backend local name, t) →
  event ∈ (serve b order req).2 →
  event ∈ t ∨ event = SetPath local ∨
  ∃ op, event = Call backend op ∧ operationPath op = Some local.
Proof.
  intros Hg.
  destruct req; simpl in Hg |- *; unfold_operations; rewrite Hg; simpl;
    repeat match goal with
           | |- context [FileStorage.Get ?x ?y] => destruct (FileStorage.Get x y)
           | |- context [FileStorage.ListFiles ?x ?y ?z ?w] =>
               destruct (FileStorage.ListFiles x y z w)
           | |- context [FileStorage.ListFolders ?x ?y ?z] =>
               destruct (FileStorage.ListFolders x y z)
           end; simpl;
    rewrite ?elem_of_app, ?elem_of_cons, ?elem_of_nil;
    intros Hin; decompose [or] Hin; subst; try done; eauto 6.
Qed.

(** C10.  Whatever the input, [removeBackendNamePrefix] returns a string
    that begins with the delimiter; and when a mount name matched the path
    of a request, every call the operation makes hands the backend a
    non-empty path that begins with the delimiter. *)
Theorem backend_paths_begin_with_Delimiter :
  (∀ path, GoStrings.HasPrefix (removeBackendNamePrefix path) Delimiter = true) ∧
  (∀ b order req r backend op,
     getBackendLoop order (requestPath req) = Some r →
     Call backend op ∈ (serve b order req).2 →
     ∃ path, operationPath op = Some path ∧ path ≠ "" ∧
             GoStrings.HasPrefix path Delimiter = true).
Proof.
  split; [exact removeBackendNamePrefix_HasPrefix|].
  intros b order req r backend op Hl Hin.
  pose proof (getBackend_matched b _ _ _ Hl) as Hg.
  destruct (getBackendLoop_Some _ _ _ Hl) as (name' & backend' & _ & _ & ->).
  unfold matched in Hg. destruct (validatePath _).
  - rewrite (serve_short_circuit _ _ _ _ _ Hg) in Hin. by apply elem_of_nil in Hin.
  - destruct (serve_resolved_events _ _ _ _ _ _ _ _ Hg Hin)
      as [Hnil|[?|(op' & [= <- <-] & Hop)]]; [by apply elem_of_nil in Hnil|done|].
    exists (removeBackendNamePrefix (requestPath req)).
    pose proof (removeBackendNamePrefix_HasPrefix (requestPath req)) as Hpre.
    split_and!; [done| |done].
    intros Hempty. by rewrite Hempty in Hpre.
Qed.

(** The call that [Delete] of [/mountA/x] makes. *)
Lemma backend_paths_begin_with_Delimiter_witness :
  ∃ path, operationPath (OpDelete "/x") = Some path ∧ path ≠ "" ∧
          GoStrings.HasPrefix path Delimiter = true.
Proof.
  apply (proj2 backend_paths_begin_with_Delimiter mountAService
           [("mountA", healthyBackend)] (ReqDelete "/mountA/x")
           (Resolved healthyBackend "/x" "mountA") healthyBackend (OpDelete "/x")).
  - reflexivity.
  - simpl. apply list_elem_of_singleton. reflexivity.
Defined.

(** ** The router on the examples of the specification *)

Example removeBackendNamePrefix_file :
  removeBackendNamePrefix "/mountA/dir/x.json" = "/dir/x.json".
Proof. reflexivity. Qed.

Example removeBackendNamePrefix_folder :
  removeBackendNamePrefix "/mountA/dir/" = "/dir/".
Proof. reflexivity. Qed.

(** A name that only shares a prefix with the first segment matches too,
    and the whole first segment is dropped. *)
Example getBackend_prefix_of_segment :
  getBackend mountAService [("mountA", healthyBackend)] "/mountAB/x"
    = (Resolved healthyBackend "/x" "mountA", []) ∧
  Join "mountA" "/x" = "/mountA/x".
Proof. split; reflexivity. Qed.

Example Get_unknown_mount :
  Get mountAService [("mountA", healthyBackend)] "/unknown-mount/x"
    = ((None, Some (BackendError "not found")),
       [LogWarn "Backend not found" "/unknown-mount/x";
        Call dummyFileStorage (OpGet "/unknown-mount/x")]).
Proof. reflexivity. Qed.

Example Split_longer_separator : GoStrings.Split "a--b---c" "--" = ["a"; "b"; "-c"].
Proof. reflexivity. Qed.

(** * Further properties of the router *)

(** ** What a resolution guarantees *)

Lemma rangeOrder_map_Forall (m : gmap string FileStorage.t) order (P : string → Prop) :
  rangeOrder m order → Forall (λ entry, P entry.1) order →
  map_Forall (λ name _, P name) m.
Proof.
  intros Hr HP name backend Hm. rewrite Forall_forall in HP.
  apply (rangeOrder_lookup _ _ _ _ Hr) in Hm. exact (HP _ Hm).
Qed.

Lemma outcome_matched path name backend name' backend' :
  outcome (matched path name backend) = outcome (matched path name' backend').
Proof. unfold matched. by destruct (validatePath _). Qed.

(** A loop over entries of which one matches ends at a matching entry. *)
Lemma getBackendLoop_of_match order path name backend :
  (name, backend) ∈ order → matchesBackend path name = true →
  ∃ name' backend',
    (name', backend') ∈ order ∧ matchesBackend path name' = true ∧
    getBackendLoop order path = Some (matched path name' backend').
Proof.
  intros Hin Hmatch.
  destruct (getBackendLoop_is_Some _ _ _ _ Hin Hmatch) as [r Hl].
  destruct (getBackendLoop_Some _ _ _ Hl) as (name' & backend' & Hin' & Hm' & ->).
  by exists name', backend'.
Qed.

(** X1.  A successful resolution always hands out a local path that passed
    [validatePath], and comes from one of two places: an entry of the
    registry whose name matches the path, with the stripped path and no
    event; or the dummy backend, with the empty name, the path itself and
    the warning, which happens only when no registered name matches. *)
Theorem getBackend_resolved_sound b order path backend local name t :
  rangeOrder (backendByName b) order →
  getBackend b order path = (Resolved backend local name, t) →
  validatePath local = None ∧
  ((backendByName b !! name = Some backend ∧
    matchesBackend path name = true ∧
    local = removeBackendNamePrefix path ∧ t = []) ∨
   (backend = dummyBackend b ∧ name = "" ∧ local = path ∧
    t = [LogWarn "Backend not found" path] ∧
    map_Forall (λ name' _, matchesBackend path name' = false) (backendByName b))).
Proof.
  intros Hr. unfold getBackend.
  destruct (getBackendLoop order path) as [r|] eqn:Hl.
  - intros [= -> <-].
    destruct (getBackendLoop_Some _ _ _ Hl) as (name' & backend' & Hin & Hm & Hres).
    unfold matched in Hres. destruct (validatePath _) eqn:Hv; [done|].
    injection Hres as -> -> ->. split; [done|]. left.
    split_and!; [by apply (rangeOrder_lookup _ _ _ _ Hr)|done..].
  - destruct (validatePath path) eqn:Hv; [done|].
    intros [= <- <- <- <-]. split; [done|]. right. split_and!; [done..|].
    apply getBackendLoop_None in Hl.
    exact (rangeOrder_map_Forall _ _ (λ n, matchesBackend path n = false) Hr Hl).
Qed.

(** The file [/mountA/dir/x.json], resolved under [mountA]. *)
Lemma getBackend_resolved_sound_witness :
  validatePath "/dir/x.json" = None ∧
  ((backendByName mountAService !! "mountA" = Some healthyBackend ∧
    matchesBackend "/mountA/dir/x.json" "mountA" = true ∧
    "/dir/x.json" = removeBackendNamePrefix "/mountA/dir/x.json" ∧
    @nil Event = []) ∨
   (healthyBackend = dummyBackend mountAService ∧ "mountA" = "" ∧
    "/dir/x.json" = "/mountA/dir/x.json" ∧
    [] = [LogWarn "Backend not found" "/mountA/dir/x.json"] ∧
    map_Forall (λ name' _, matchesBackend "/mountA/dir/x.json" name' = false)
      (backendByName mountAService))).
Proof.
  apply (getBackend_resolved_sound mountAService [("mountA", healthyBackend)]
           "/mountA/dir/x.json" healthyBackend "/dir/x.json" "mountA" []).
  - solve_rangeOrder.
  - reflexivity.
Defined.

(** X2.  As soon as one registered name matches the path, the dummy backend is
    out of the question and nothing is logged: the result is decided by the
    stripped path alone, and the backend is a registered one whose name
    matches. *)
Theorem getBackend_match_excludes_dummy b order path name backend :
  rangeOrder (backendByName b) order →
  backendByName b !! name = Some backend →
  matchesBackend path name = true →
  ∃ name' backend',
    backendByName b !! name' = Some backend' ∧
    matchesBackend path name' = true ∧
    getBackend b order path = (matched path name' backend', []).
Proof.
  intros Hr Hm Hmatch.
  apply (rangeOrder_lookup _ _ _ _ Hr) in Hm.
  destruct (getBackendLoop_of_match _ _ _ _ Hm Hmatch)
    as (name' & backend' & Hin & Hm' & Hl).
  exists name', backend'.
  split_and!; [by apply (rangeOrder_lookup _ _ _ _ Hr)|done|].
  by apply getBackend_matched.
Qed.

(** The path [/mountAB/x], which [mountA] matches by prefix. *)
Lemma getBackend_match_excludes_dummy_witness :
  ∃ name' backend',
    backendByName mountAService !! name' = Some backend' ∧
    matchesBackend "/mountAB/x" name' = true ∧
    getBackend mountAService [("mountA", healthyBackend)] "/mountAB/x"
      = (matched "/mountAB/x" name' backend', []).
Proof.
  apply (getBackend_match_excludes_dummy mountAService [("mountA", healthyBackend)]
           "/mountAB/x" "mountA" healthyBackend).
  - solve_rangeOrder.
  - reflexivity.
  - reflexivity.
Defined.

(** X3.  The iteration order of the registry can change the backend and the
    mount name of a resolution, and nothing else: whether it fails, with
    which error, the local path and the log are the same in every order. *)
Theorem getBackend_outcome_order_independent b order1 order2 path :
  rangeOrder (backendByName b) order1 →
  rangeOrder (backendByName b) order2 →
  outcome (getBackend b order1 path).1 = outcome (getBackend b order2 path).1 ∧
  (getBackend b order1 path).2 = (getBackend b order2 path).2.
Proof.
  intros Hr1 Hr2.
  destruct (getBackendLoop order1 path) as [r1|] eqn:Hl1.
  - destruct (getBackendLoop_Some _ _ _ Hl1) as (name1 & backend1 & Hin1 & Hm1 & ->).
    apply (rangeOrder_lookup _ _ _ _ Hr1) in Hin1.
    apply (rangeOrder_lookup _ _ _ _ Hr2) in Hin1.
    destruct (getBackendLoop_of_match _ _ _ _ Hin1 Hm1)
      as (name2 & backend2 & _ & _ & Hl2).
    rewrite (getBackend_matched _ _ _ _ Hl1), (getBackend_matched _ _ _ _ Hl2). simpl.
    split; [apply outcome_matched|done].
  - assert (Hl2 : getBackendLoop order2 path = None).
    { apply getBackendLoop_None.
      apply (rangeOrder_Forall _ _ (λ n, matchesBackend path n = false) Hr2).
      apply (rangeOrder_map_Forall _ _ (λ n, matchesBackend path n = false) Hr1).
      by apply getBackendLoop_None. }
    by rewrite !getBackend_unmatched.
Qed.

(** The path [/db2/x], which both [db] and [db2] match. *)
Lemma getBackend_outcome_order_independent_witness :
  outcome (getBackend overlappingService
             [("db", healthyBackend); ("db2", failingBackend)] "/db2/x").1
  = outcome (getBackend overlappingService
               [("db2", failingBackend); ("db", healthyBackend)] "/db2/x").1 ∧
  (getBackend overlappingService
     [("db", healthyBackend); ("db2", failingBackend)] "/db2/x").2
  = (getBackend overlappingService
       [("db2", failingBackend); ("db", healthyBackend)] "/db2/x").2.
Proof.
  apply (getBackend_outcome_order_independent overlappingService
           [("db", healthyBackend); ("db2", failingBackend)]
           [("db2", failingBackend); ("db", healthyBackend)] "/db2/x");
    solve_rangeOrder.
Defined.

(** ** Resolve, then delegate *)

(** After a successful resolution an operation makes, behind the events of
    the resolution and the assignment of [Upsert], one call of the resolved
    backend, and returns the error of that call. *)
Lemma serve_resolved b order req backend local name t :
  getBackend b order (requestPath req) = (Resolved backend local name, t) →
  serve b order req =
    (answerError backend (operationOf req local),
     t ++ assignmentsOf req local ++ [Call backend (operationOf req local)]).
Proof.
  intros Hg.
  destruct req; simpl in Hg |- *; unfold_operations; rewrite Hg; simpl;
    repeat match goal with
           | |- context [FileStorage.Get ?x ?y] => destruct (FileStorage.Get x y)
           | |- context [FileStorage.ListFiles ?x ?y ?z ?w] =>
               destruct (FileStorage.ListFiles x y z w)
           | |- context [FileStorage.ListFolders ?x ?y ?z] =>
               destruct (FileStorage.ListFolders x y z)
           end; simpl; by rewrite ?app_nil_r.
Qed.

(** X4.  Every public operation has the same shape.  When the resolution fails
    it returns the error and does nothing else; when it succeeds it makes,
    after the events of the resolution and the assignment of [Upsert], one
    call of the resolved backend, the one of the operation on the local
    path, and returns the error of that call as it is. *)
Theorem serve_resolve_delegate b order req :
  serve b order req =
    match getBackend b order (requestPath req) with
    | (Resolved backend local _, t) =>
        (answerError backend (operationOf req local),
         t ++ assignmentsOf req local ++ [Call backend (operationOf req local)])
    | (ResolveError err, _) => (Some err, [])
    end.
Proof.
  destruct (getBackend b order (requestPath req)) as [[backend local name|err] t] eqn:Hg.
  - by apply (serve_resolved _ _ _ _ _ name).
  - by apply (serve_short_circuit _ _ _ _ t).
Qed.

Lemma getBackend_no_calls b order path : callsOf (getBackend b order path).2 = [].
Proof.
  unfold getBackend. destruct (getBackendLoop order path); [done|].
  by destruct (validatePath path).
Qed.

(** X5.  No operation ever calls more than one backend method: the resolution
    calls none, a failed resolution is followed by none, and a successful
    one by exactly one, on the backend it resolved. *)
Theorem serve_calls_one_backend b order req :
  callsOf (serve b order req).2 =
    match (getBackend b order (requestPath req)).1 with
    | Resolved backend local _ => [(backend, operationOf req local)]
    | ResolveError _ => []
    end.
Proof.
  pose proof (getBackend_no_calls b order (requestPath req)) as Hcalls.
  destruct (getBackend b order (requestPath req)) as [[backend local name|err] t] eqn:Hg.
  - rewrite (serve_resolved _ _ _ _ _ _ _ Hg).
    simpl in *. unfold callsOf in *. rewrite !omap_app, Hcalls.
    by destruct req.
  - by rewrite (serve_short_circuit _ _ _ _ _ Hg).
Qed.

(** ** Routing below a mount *)

Lemma TrimPrefix_no_Delimiter s :
  GoStrings.Contains s Delimiter = false → GoStrings.TrimPrefix s Delimiter = s.
Proof.
  destruct s as [|c s]; [done|].
  rewrite Contains_cons. intros [Hc _]%orb_false_iff.
  apply TrimPrefix_Delimiter_other. intros ->. by rewrite bool_decide_eq_true_2 in Hc.
Qed.

Lemma HasPrefix_relative path name :
  GoStrings.HasPrefix path Delimiter = false →
  GoStrings.HasPrefix path (Delimiter +:+ name) = false.
Proof.
  destruct path as [|c path]; [done|].
  rewrite HasPrefix_Delimiter_cons. intros Hc.
  change (Delimiter +:+ name) with (String "/" name). simpl. by rewrite Hc.
Qed.

(** X6.  A path [/name/rest] below a registered, delimiter-free mount name, with
    no other registered name matching it, goes to the backend of that name
    with [/rest] as its local path, in every iteration order; the operation
    on it is one call of that backend on [/rest] and returns its error. *)
Theorem serve_routes_below_mount b order name backend rest req :
  rangeOrder (backendByName b) order →
  backendByName b !! name = Some backend →
  GoStrings.Contains name Delimiter = false →
  rest ≠ "" →
  validatePath (Delimiter +:+ rest) = None →
  requestPath req = Delimiter +:+ name +:+ Delimiter +:+ rest →
  map_Forall (λ name' _, matchesBackend (requestPath req) name' = true → name' = name)
    (backendByName b) →
  getBackend b order (requestPath req) = (Resolved backend (Delimiter +:+ rest) name, []) ∧
  serve b order req =
    (answerError backend (operationOf req (Delimiter +:+ rest)),
     assignmentsOf req (Delimiter +:+ rest) ++
     [Call backend (operationOf req (Delimiter +:+ rest))]).
Proof.
  intros Hr Hm Hc Hrest Hvalid Hpath Honly.
  assert (Hg : getBackend b order (requestPath req)
               = (Resolved backend (Delimiter +:+ rest) name, [])).
  { assert (Hmatch : matchesBackend (requestPath req) name = true)
      by (rewrite Hpath; apply matchesBackend_app).
    apply (rangeOrder_lookup _ _ _ _ Hr) in Hm.
    destruct (getBackendLoop_of_match _ _ _ _ Hm Hmatch)
      as (name' & backend' & Hm' & Hmatch' & Hl).
    apply (rangeOrder_lookup _ _ _ _ Hr) in Hm, Hm'.
    rewrite (getBackend_matched _ _ _ _ Hl).
    pose proof (Honly _ _ Hm' Hmatch') as ->.
    assert (backend' = backend) as -> by congruence.
    unfold matched. rewrite Hpath, removeBackendNamePrefix_under by done.
    by rewrite Hvalid. }
  split; [done|]. by rewrite (serve_resolved _ _ _ _ _ _ _ Hg).
Qed.

(** [Delete] of [/mountA/dir/x.json] under the mount [mountA]. *)
Lemma serve_routes_below_mount_witness :
  getBackend mountAService [("mountA", healthyBackend)]
      (requestPath (ReqDelete "/mountA/dir/x.json"))
    = (Resolved healthyBackend (Delimiter +:+ "dir/x.json") "mountA", []) ∧
  serve mountAService [("mountA", healthyBackend)] (ReqDelete "/mountA/dir/x.json") =
    (answerError healthyBackend
       (operationOf (ReqDelete "/mountA/dir/x.json") (Delimiter +:+ "dir/x.json")),
     assignmentsOf (ReqDelete "/mountA/dir/x.json") (Delimiter +:+ "dir/x.json") ++
     [Call healthyBackend
        (operationOf (ReqDelete "/mountA/dir/x.json") (Delimiter +:+ "dir/x.json"))]).
Proof.
  apply (serve_routes_below_mount mountAService [("mountA", healthyBackend)]
           "mountA" healthyBackend "dir/x.json" (ReqDelete "/mountA/dir/x.json")).
  - solve_rangeOrder.
  - reflexivity.
  - reflexivity.
  - discriminate.
  - reflexivity.
  - reflexivity.
  - apply map_Forall_singleton. reflexivity.
Defined.

(** X7.  A path that is a registered, delimiter-free mount name as it stands,
    without a leading delimiter, is resolved to the root of a registered
    backend. *)
Theorem getBackend_bare_name b order name backend :
  rangeOrder (backendByName b) order →
  backendByName b !! name = Some backend →
  GoStrings.Contains name Delimiter = false →
  ∃ name' backend',
    backendByName b !! name' = Some backend' ∧
    getBackend b order name = (Resolved backend' Delimiter name', []).
Proof.
  intros Hr Hm Hc.
  assert (Hmatch : matchesBackend name name = true).
  { unfold matchesBackend. by rewrite bool_decide_eq_true_2, orb_true_r. }
  apply (rangeOrder_lookup _ _ _ _ Hr) in Hm.
  destruct (getBackendLoop_of_match _ _ _ _ Hm Hmatch)
    as (name' & backend' & Hm' & _ & Hl).
  exists name', backend'. split; [by apply (rangeOrder_lookup _ _ _ _ Hr)|].
  rewrite (getBackend_matched _ _ _ _ Hl). unfold matched. rewrite (removeBackendNamePrefix_single name name); [done|].
  rewrite TrimPrefix_no_Delimiter by done. by apply Split_no_Delimiter.
Qed.

(** The path [mountA]. *)
Lemma getBackend_bare_name_witness :
  ∃ name' backend',
    backendByName mountAService !! name' = Some backend' ∧
    getBackend mountAService [("mountA", healthyBackend)] "mountA"
      = (Resolved backend' Delimiter name', []).
Proof.
  apply (getBackend_bare_name mountAService [("mountA", healthyBackend)]
           "mountA" healthyBackend).
  - solve_rangeOrder.
  - reflexivity.
  - reflexivity.
Defined.

(** X8.  With delimiter-free mount names, a path that does not begin with the
    delimiter but has one further on matches no mount, whatever its first
    segment: if it is valid it goes to the dummy backend unchanged, with the
    warning. *)
Theorem getBackend_relative_path_unrouted b order path :
  rangeOrder (backendByName b) order →
  map_Forall (λ name _, GoStrings.Contains name Delimiter = false) (backendByName b) →
  GoStrings.HasPrefix path Delimiter = false →
  GoStrings.Contains path Delimiter = true →
  validatePath path = None →
  getBackend b order path
    = (Resolved (dummyBackend b) path "", [LogWarn "Backend not found" path]).
Proof.
  intros Hr Hnames Hrel Hc Hvalid.
  rewrite getBackend_unmatched, Hvalid; [done|].
  apply getBackendLoop_None, Forall_forall. intros [name backend] Hin. simpl.
  apply (rangeOrder_lookup _ _ _ _ Hr) in Hin.
  unfold matchesBackend. rewrite HasPrefix_relative by done. simpl.
  apply bool_decide_eq_false. intros ->.
  pose proof (Hnames _ _ Hin) as Hfree. simpl in Hfree. congruence.
Qed.

(** The path [mountA/x], whose first segment is the name of a mount. *)
Lemma getBackend_relative_path_unrouted_witness :
  getBackend mountAService [("mountA", healthyBackend)] "mountA/x"
    = (Resolved (dummyBackend mountAService) "mountA/x" "",
       [LogWarn "Backend not found" "mountA/x"]).
Proof.
  apply (getBackend_relative_path_unrouted mountAService
           [("mountA", healthyBackend)] "mountA/x").
  - solve_rangeOrder.
  - apply map_Forall_singleton. reflexivity.
  - reflexivity.
  - reflexivity.
  - reflexivity.
Defined.

(** ** What comes back from a backend *)

(** X9.  After a successful resolution [Get] calls the backend's [Get] once,
    on the local path, and returns the backend's error beside the file.  A
    nil file comes back nil.  A file comes back with its contents, size,
    modification time, content type and properties as the backend gave
    them, and with [Join name] of the backend's FullPath as its FullPath,
    which for a non-empty mount name and a FullPath that begins with the
    delimiter is the delimiter, the name and that FullPath. *)
Theorem Get_rewrites_FullPath b order path backend local name t file err :
  getBackend b order path = (Resolved backend local name, t) →
  FileStorage.Get backend local = (file, err) →
  ∃ file',
    Get b order path = ((file', err), t ++ [Call backend (OpGet local)]) ∧
    match file, file' with
    | Some f, Some f' =>
        Contents f' = Contents f ∧
        FullPath (fileMetadata f') = Join name (FullPath (fileMetadata f)) ∧
        (name ≠ "" →
         GoStrings.HasPrefix (FullPath (fileMetadata f)) Delimiter = true →
         FullPath (fileMetadata f') = Delimiter +:+ name +:+ FullPath (fileMetadata f)) ∧
        Size (fileMetadata f') = Size (fileMetadata f) ∧
        Modified (fileMetadata f') = Modified (fileMetadata f) ∧
        MimeType (fileMetadata f') = MimeType (fileMetadata f) ∧
        Properties (fileMetadata f') = Properties (fileMetadata f)
    | None, None => True
    | _, _ => False
    end.
Proof.
  intros Hg Hb.
  exists (match file with
          | Some f => Some (mkFile (Contents f) (rejoin name (fileMetadata f)))
          | None => None
          end).
  split.
  - unfold_operations. by rewrite Hg, Hb.
  - destruct file as [f|]; [|done]. split_and!; [done..| |done|done|done|done].
    intros Hname _. simpl. unfold Join. by rewrite bool_decide_eq_false_2.
Qed.

(** [Get] of [/mountA/x.json], which the backend reports as [/x.json]. *)
Lemma Get_rewrites_FullPath_witness :
  ∃ file',
    Get mountAService [("mountA", healthyBackend)] "/mountA/x.json"
      = ((file', None), [] ++ [Call healthyBackend (OpGet "/x.json")]) ∧
    match Some (mkFile None (metadataAt "/x.json")), file' with
    | Some f, Some f' =>
        Contents f' = Contents f ∧
        FullPath (fileMetadata f') = Join "mountA" (FullPath (fileMetadata f)) ∧
        ("mountA" ≠ "" →
         GoStrings.HasPrefix (FullPath (fileMetadata f)) Delimiter = true →
         FullPath (fileMetadata f')
           = Delimiter +:+ "mountA" +:+ FullPath (fileMetadata f)) ∧
        Size (fileMetadata f') = Size (fileMetadata f) ∧
        Modified (fileMetadata f') = Modified (fileMetadata f) ∧
        MimeType (fileMetadata f') = MimeType (fileMetadata f) ∧
        Properties (fileMetadata f') = Properties (fileMetadata f)
    | None, None => True
    | _, _ => False
    end.
Proof.
  apply (Get_rewrites_FullPath mountAService [("mountA", healthyBackend)]
           "/mountA/x.json" healthyBackend "/x.json" "mountA" []
           (Some (mkFile None (metadataAt "/x.json"))) None);
    reflexivity.
Defined.

(** X10.  After a successful resolution [ListFolders] calls the backend's
    [ListFolders] once, on the local path and with the options it was
    given, and returns the backend's error.  A nil slice comes back nil.
    Otherwise as many folders come back, in the same order; folder [i] has
    [Join name] of the FullPath of the backend's folder [i] as its FullPath,
    which for a non-empty mount name and a FullPath that begins with the
    delimiter is the delimiter, the name and that FullPath, and the size,
    modification time, content type and properties of the backend's
    folder. *)
Theorem ListFolders_rewrites_FullPath
    b order path options backend local name t folders err :
  getBackend b order path = (Resolved backend local name, t) →
  FileStorage.ListFolders backend local options = (folders, err) →
  ∃ folders',
    ListFolders b order path options =
      ((folders', err), t ++ [Call backend (OpListFolders local options)]) ∧
    match folders, folders' with
    | Some xs, Some xs' =>
        length xs' = length xs ∧
        ∀ i folder, xs !! i = Some folder →
          ∃ folder',
            xs' !! i = Some folder' ∧
            FullPath folder' = Join name (FullPath folder) ∧
            (name ≠ "" → GoStrings.HasPrefix (FullPath folder) Delimiter = true →
             FullPath folder' = Delimiter +:+ name +:+ FullPath folder) ∧
            Size folder' = Size folder ∧
            Modified folder' = Modified folder ∧
            MimeType folder' = MimeType folder ∧
            Properties folder' = Properties folder
    | None, None => True
    | _, _ => False
    end.
Proof.
  intros Hg Hb.
  exists (match folders with Some xs => Some (rejoin name <$> xs) | None => None end).
  split.
  - unfold_operations. rewrite Hg, Hb.
    destruct folders; [|done]. simpl. by rewrite rejoinLoop_fmap.
  - destruct folders as [xs|]; [|done]. simpl. split; [apply length_fmap|].
    intros i folder Hi. exists (rejoin name folder).
    split_and!; [by rewrite list_lookup_fmap, Hi|done| |done..].
    intros Hname _. simpl. unfold Join. by rewrite bool_decide_eq_false_2.
Qed.

(** The folders of [/mountA], which the backend lists as [/dir]. *)
Lemma ListFolders_rewrites_FullPath_witness :
  ∃ folders',
    ListFolders mountAService [("mountA", healthyBackend)] "/mountA/" None =
      ((folders', None), [] ++ [Call healthyBackend (OpListFolders "/" None)]) ∧
    match Some [metadataAt "/dir"], folders' with
    | Some xs, Some xs' =>
        length xs' = length xs ∧
        ∀ i folder, xs !! i = Some folder →
          ∃ folder',
            xs' !! i = Some folder' ∧
            FullPath folder' = Join "mountA" (FullPath folder) ∧
            ("mountA" ≠ "" → GoStrings.HasPrefix (FullPath folder) Delimiter = true →
             FullPath folder' = Delimiter +:+ "mountA" +:+ FullPath folder) ∧
            Size folder' = Size folder ∧
            Modified folder' = Modified folder ∧
            MimeType folder' = MimeType folder ∧
            Properties folder' = Properties folder
    | None, None => True
    | _, _ => False
    end.
Proof.
  apply (ListFolders_rewrites_FullPath mountAService [("mountA", healthyBackend)]
           "/mountA/" None healthyBackend "/" "mountA" []
           (Some [metadataAt "/dir"]) None);
    reflexivity.
Defined.

(** X11.  When the backend answers [ListFiles] with a nil response, or with a
    response whose entries are nil, the router returns that answer as it
    is, error included. *)
Theorem ListFiles_nil_untouched
    b order path cursor options backend local name t resp err :
  getBackend b order path = (Resolved backend local name, t) →
  FileStorage.ListFiles backend local cursor options = (resp, err) →
  (∀ r, resp = Some r → Files r = None) →
  ListFiles b order path cursor options =
    ((resp, err), t ++ [Call backend (OpListFiles local cursor options)]).
Proof.
  intros Hg Hb Hnil. unfold_operations. rewrite Hg, Hb.
  destruct resp as [r|]; [|done]. by rewrite (Hnil r).
Qed.

(** A listing on an unknown mount: the dummy backend answers nil. *)
Lemma ListFiles_nil_untouched_witness :
  ListFiles mountAService [("mountA", healthyBackend)] "/unknown/dir" None None =
    ((None, Some (BackendError "not found")),
     [LogWarn "Backend not found" "/unknown/dir"] ++
     [Call dummyFileStorage (OpListFiles "/unknown/dir" None None)]).
Proof.
  apply (ListFiles_nil_untouched mountAService [("mountA", healthyBackend)]
           "/unknown/dir" None None dummyFileStorage "/unknown/dir" ""
           [LogWarn "Backend not found" "/unknown/dir"] None
           (Some (BackendError "not found")));
    [reflexivity|reflexivity|discriminate].
Defined.

(** ** [Upsert] on a command that was upserted before *)



(** ** [close] over the registry *)

(** X13.  Whatever the iteration order, [close] calls [close] on every registered
    backend, once each, and nothing else.  The error it returns is the one
    some registered backend's [close] returned; and it returns nil only when
    the registry is empty or some registered backend closed without
    error. *)
Theorem close_closes_every_backend b order :
  rangeOrder (backendByName b) order →
  (close b order).2 ≡ₚ (λ entry, Call entry.2 OpClose) <$> map_to_list (backendByName b) ∧
  (∀ err, (close b order).1 = Some err →
     ∃ name backend,
       backendByName b !! name = Some backend ∧ FileStorage.close backend = Some err) ∧
  ((close b order).1 = None →
     backendByName b = ∅ ∨
     ∃ name backend,
       backendByName b !! name = Some backend ∧ FileStorage.close backend = None).
Proof.
  intros Hr. unfold close. rewrite closeLoop_spec. simpl.
  split_and!.
  - unfold rangeOrder in Hr. by rewrite Hr.
  - intros err. destruct (last order) as [[name backend]|] eqn:Hlast; [|done].
    simpl. intros Herr. exists name, backend. split; [|done].
    apply (rangeOrder_lookup _ _ _ _ Hr). by apply last_Some_elem_of.
  - destruct (last order) as [[name backend]|] eqn:Hlast.
    + simpl. intros Hnil. right. exists name, backend. split; [|done].
      apply (rangeOrder_lookup _ _ _ _ Hr). by apply last_Some_elem_of.
    + intros _. left. apply last_None in Hlast. subst order.
      unfold rangeOrder in Hr. apply Permutation_nil in Hr.
      by apply map_to_list_empty_iff.
Qed.

(** The registry of [a], which fails to close, and [b]. *)
Lemma close_closes_every_backend_witness :
  (close closingService [("a", failingBackend); ("b", healthyBackend)]).2
    ≡ₚ (λ entry, Call entry.2 OpClose) <$> map_to_list (backendByName closingService) ∧
  (∀ err, (close closingService [("a", failingBackend); ("b", healthyBackend)]).1
            = Some err →
     ∃ name backend,
       backendByName closingService !! name = Some backend ∧
       FileStorage.close backend = Some err) ∧
  ((close closingService [("a", failingBackend); ("b", healthyBackend)]).1 = None →
     backendByName closingService = ∅ ∨
     ∃ name backend,
       backendByName closingService !! name = Some backend ∧
       FileStorage.close backend = None).
Proof.
  apply (close_closes_every_backend closingService
           [("a", failingBackend); ("b", healthyBackend)]).
  solve_rangeOrder.
Defined.

(** ** The segments that [removeBackendNamePrefix] keeps *)

Section KeptSegments.
Import GoStrings.
#[local] Arguments Split : simpl never.
#[local] Arguments Contains : simpl never.

(** X14.  Of the segments of the path, taken after one leading delimiter is
    trimmed, [removeBackendNamePrefix] drops the first and keeps every
    other one as it is, empty segments and a trailing delimiter included;
    only when nothing, or nothing but one empty segment, follows the first
    does it return the bare delimiter. *)
Theorem removeBackendNamePrefix_keeps_later_segments path :
  match tail (Split (TrimPrefix path Delimiter) Delimiter) with
  | [] => removeBackendNamePrefix path = Delimiter
  | [seg] =>
      if bool_decide (seg = "") then removeBackendNamePrefix path = Delimiter
      else Split (removeBackendNamePrefix path) Delimiter = [""; seg]
  | later => Split (removeBackendNamePrefix path) Delimiter = "" :: later
  end.
Proof.
  destruct (Split_inv (TrimPrefix path Delimiter)) as (seg & rest & Hs).
  assert (Hkept : rest ≠ [] → rest ≠ [""] →
                  Split (removeBackendNamePrefix path) Delimiter = "" :: rest).
  { intros Hne Hne'. destruct rest as [|seg' rest]; [done|].
    rewrite (removeBackendNamePrefix_segments _ _ _ _ Hs Hne').
    change (Delimiter +:+ Join (seg' :: rest) Delimiter)
      with (String "/" (Join (seg' :: rest) Delimiter)).
    rewrite Split_Delimiter_cons, Split_Join; [done|].
    apply Forall_forall. intros s Hin.
    apply (Split_segments (TrimPrefix path Delimiter)).
    rewrite Hs. by right. }
  rewrite Hs. simpl. destruct rest as [|seg' [|seg'' rest]].
  - exact (removeBackendNamePrefix_single _ _ Hs).
  - case_bool_decide as Hseg.
    + subst seg'. exact (removeBackendNamePrefix_trailing _ _ Hs).
    + apply Hkept; [done|]. by intros [= ->].
  - by apply Hkept.
Qed.

Lemma length_append (s1 s2 : string) :
  String.length (s1 +:+ s2) = String.length s1 + String.length s2.
Proof. induction s1 as [|c s1 IH]; simpl; [done|]. by rewrite IH. Qed.

Lemma TrimPrefix_Delimiter_length path :
  (String.length (TrimPrefix path Delimiter) ≤ String.length path)%nat.
Proof.
  destruct path as [|c path]; [done|].
  unfold TrimPrefix. rewrite HasPrefix_Delimiter_cons.
  case_bool_decide; simpl; lia.
Qed.

(** X15.  The local path is never longer than the path it was stripped from,
    but for the empty path, which becomes the one-byte root. *)
Theorem removeBackendNamePrefix_length path :
  (String.length (removeBackendNamePrefix path) ≤ max 1 (String.length path))%nat.
Proof.
  destruct (removeBackendNamePrefix_cases path) as [->|(seg & seg' & rest & Hs & ->)].
  - simpl. lia.
  - pose proof (TrimPrefix_Delimiter_length path) as Htrim.
    rewrite <- (Join_Split (TrimPrefix path Delimiter)), Hs, Join_cons in Htrim.
    set (joined := Join (seg' :: rest) Delimiter) in *.
    clearbody joined. rewrite !length_append in Htrim. rewrite length_append.
    change (String.length Delimiter) with 1 in *. lia.
Qed.

End KeptSegments.

(** ** [ProvideService] *)

Section ProvideServiceProperties.
Context {Bucket BucketError SupportedOperation : Type}.
Variable OpenBucket : string → Bucket + BucketError.
Variable NewCdkBlobStorage :
  string → Bucket → string → list string → list SupportedOperation → FileStorage.t.
Variable wrappedDummy : FileStorage.t.
Variable currentDir : string.

Implicit Types (FS : list (FSBackend.t SupportedOperation)).
Implicit Types (fsBackend : FSBackend.t SupportedOperation).
Implicit Types (acc m : gmap string FileStorage.t).

#[local] Abbreviation loop := (provideLoop OpenBucket NewCdkBlobStorage currentDir).
#[local] Abbreviation opens :=
  (λ fsBackend, ∃ bucket, OpenBucket (bucketPath fsBackend) = inl bucket).
#[local] Abbreviation registeredFor FS name backend :=
  (∃ fsBackend bucket,
     fsBackend ∈ FS ∧ FSBackend.Name fsBackend = name ∧
     OpenBucket (bucketPath fsBackend) = inl bucket ∧
     backend = newBackend NewCdkBlobStorage fsBackend bucket).

(** What a loop that ran to its end has seen and built. *)
Lemma provideLoop_inv FS acc m logged :
  loop FS acc = (inl m, logged) →
  logged = [] ∧
  NoDup (FSBackend.Name <$> FS) ∧
  (∀ fsBackend, fsBackend ∈ FS → acc !! FSBackend.Name fsBackend = None) ∧
  Forall opens FS ∧
  size m = size acc + length FS ∧
  (∀ name backend,
     m !! name = Some backend ↔ acc !! name = Some backend ∨ registeredFor FS name backend).
Proof.
  revert acc. induction FS as [|c FS IH]; intros acc; simpl.
  - intros [= -> <-]. split_and!; [done|constructor|by intros ? ?%elem_of_nil|done|lia|].
    intros name backend. split; [by left|].
    intros [?|(? & ? & ?%elem_of_nil & _)]; done.
  - destruct (OpenBucket (bucketPath c)) as [bucket|err] eqn:Hopen; [|done].
    destruct (acc !! FSBackend.Name c) eqn:Hfree; [done|].
    intros (-> & Hnodup & Hfresh & Hopens & Hsize & Hlookup)%IH.
    assert (Hnotin : ∀ c', c' ∈ FS → FSBackend.Name c' ≠ FSBackend.Name c).
    { intros c' Hin Heq. specialize (Hfresh c' Hin).
      rewrite Heq, lookup_insert_eq in Hfresh. discriminate Hfresh. }
    split_and!.
    + done.
    + apply NoDup_cons. split; [|done].
      intros (c' & Heq & Hin)%list_elem_of_fmap. by apply (Hnotin c' Hin).
    + intros c' [->|Hin]%elem_of_cons; [done|].
      specialize (Hfresh c' Hin). rewrite lookup_insert_ne in Hfresh; [done|].
      intros Heq. by apply (Hnotin c' Hin).
    + constructor; eauto.
    + rewrite Hsize, map_size_insert_None by done. simpl. lia.
    + intros name backend. rewrite Hlookup. split.
      * intros [Hacc|(c' & bucket' & Hin & Hname & Hopen' & ->)].
        -- destruct (decide (FSBackend.Name c = name)) as [<-|Hne].
           ++ rewrite lookup_insert_eq in Hacc. injection Hacc as <-.
              right. exists c, bucket. split_and!; [by left|done..].
           ++ rewrite lookup_insert_ne in Hacc by done. by left.
        -- right. exists c', bucket'. split_and!; [by right|done..].
      * intros [Hacc|(c' & bucket' & [->|Hin]%elem_of_cons & Hname & Hopen' & ->)].
        -- left. rewrite lookup_insert_ne; [done|]. intros Heq. congruence.
        -- left. subst name. rewrite Hopen in Hopen'. injection Hopen' as <-.
           by rewrite lookup_insert_eq.
        -- right. exists c', bucket'. by split_and!.
Qed.

(** Entries with fresh, distinct names and buckets that open are all
    registered. *)
Lemma provideLoop_complete FS acc :
  NoDup (FSBackend.Name <$> FS) →
  (∀ fsBackend, fsBackend ∈ FS → acc !! FSBackend.Name fsBackend = None) →
  Forall opens FS →
  ∃ m, loop FS acc = (inl m, []).
Proof.
  revert acc. induction FS as [|c FS IH]; intros acc; simpl; [by eauto|].
  intros [Hnotin Hnodup]%NoDup_cons Hfresh Hopens.
  inversion Hopens as [|? ? [bucket Hopen] Hopens']; subst.
  rewrite Hopen, (Hfresh c) by by left.
  apply IH; [done| |done].
  intros c' Hin. rewrite lookup_insert_ne.
  - apply Hfresh. by right.
  - intros Heq. apply Hnotin. apply list_elem_of_fmap. by exists c'.
Qed.

(** A loop over [pre ++ rest] that gets through [pre] goes on over [rest]
    with the registry of [pre]. *)
Lemma provideLoop_app pre rest acc m logged :
  loop pre acc = (inl m, logged) → loop (pre ++ rest) acc = loop rest m.
Proof.
  revert acc. induction pre as [|c pre IH]; intros acc; simpl.
  - by intros [= -> _].
  - destruct (OpenBucket (bucketPath c)); [|done].
    destruct (acc !! FSBackend.Name c); [done|]. apply IH.
Qed.

(** X16.  With the feature enabled, [ProvideService] returns a service exactly
    when the configured names are all different and every bucket opens. *)
Theorem ProvideService_succeeds_iff FS :
  (∃ s logged, ProvideService OpenBucket NewCdkBlobStorage wrappedDummy currentDir true FS
                 = (inl s, logged)) ↔
  NoDup (FSBackend.Name <$> FS) ∧ Forall opens FS.
Proof.
  unfold ProvideService. simpl. split.
  - intros (s & logged & Hp).
    destruct (loop FS ∅) as [[m|err] logged'] eqn:Hloop; [|done].
    by destruct (provideLoop_inv _ _ _ _ Hloop) as (_ & ? & _ & ? & _).
  - intros [Hnodup Hopens].
    destruct (provideLoop_complete FS ∅ Hnodup) as [m ->]; [done..|]. eauto.
Qed.

(** X17.  The service that [ProvideService] returns with the feature enabled
    holds the dummy backend it was built with and as many backends as there
    are configured entries: under each entry's name, the backend that
    [NewCdkBlobStorage] makes from the logger [fileStorage-] and the name,
    the bucket opened at [file://] and the entry's path, the empty root
    folder, and the entry's allowed prefixes and supported operations.  It
    holds nothing else, and nothing was logged. *)
Theorem ProvideService_registry FS s logged :
  ProvideService OpenBucket NewCdkBlobStorage wrappedDummy currentDir true FS
    = (inl s, logged) →
  logged = [] ∧
  dummyBackend s = wrappedDummy ∧
  size (backendByName s) = length FS ∧
  ∀ name backend,
    backendByName s !! name = Some backend ↔
    ∃ fsBackend bucket,
      fsBackend ∈ FS ∧
      FSBackend.Name fsBackend = name ∧
      OpenBucket ("file://" +:+ FSBackend.Path fsBackend) = inl bucket ∧
      backend =
        NewCdkBlobStorage ("fileStorage-" +:+ FSBackend.Name fsBackend) bucket ""
          (FSBackend.AllowedPrefixes fsBackend)
          (FSBackend.SupportedOperations fsBackend).
Proof.
  unfold ProvideService. simpl.
  destruct (loop FS ∅) as [[m|err] logged'] eqn:Hloop; [|done].
  intros [= <- <-].
  destruct (provideLoop_inv _ _ _ _ Hloop) as (-> & _ & _ & _ & Hsize & Hlookup).
  simpl. split_and!; [done..|by rewrite Hsize, map_size_empty|].
  intros name backend. rewrite Hlookup. split; [|by right].
  by intros [?|?].
Qed.

(** X18.  An entry whose bucket opens but whose name was already configured by
    an earlier entry stops [ProvideService] with the error "Duplicate
    backend name" and the name, when everything before it went through; no
    service is returned and nothing is logged. *)
Theorem ProvideService_duplicate_name pre fsBackend post :
  NoDup (FSBackend.Name <$> pre) →
  Forall opens (pre ++ [fsBackend]) →
  FSBackend.Name fsBackend ∈ FSBackend.Name <$> pre →
  ProvideService OpenBucket NewCdkBlobStorage wrappedDummy currentDir true
      (pre ++ fsBackend :: post)
    = (inr (ErrorsNew ("Duplicate backend name " +:+ FSBackend.Name fsBackend)), []).
Proof.
  intros Hnodup [Hopens [[bucket Hopen] _]%Forall_cons]%Forall_app Hdup.
  unfold ProvideService. simpl.
  destruct (provideLoop_complete pre ∅ Hnodup) as [m Hpre]; [done..|].
  rewrite (provideLoop_app _ _ _ _ _ Hpre). simpl. rewrite Hopen.
  destruct (provideLoop_inv _ _ _ _ Hpre) as (_ & _ & _ & _ & _ & Hlookup).
  apply list_elem_of_fmap in Hdup as (c' & Heq & Hin).
  destruct (Forall_forall (λ c, opens c) pre) as [Hall _].
  destruct (Hall Hopens c' Hin) as [bucket' Hopen'].
  assert (Htaken : m !! FSBackend.Name fsBackend
                   = Some (newBackend NewCdkBlobStorage c' bucket')).
  { apply Hlookup. right. by exists c', bucket'. }
  by rewrite Htaken.
Qed.

(** X19.  The first entry whose bucket does not open stops [ProvideService] with
    the error of [blob.OpenBucket], logged once with the bucket's path and
    the working directory; its name is not looked at, and no service is
    returned. *)
Theorem ProvideService_open_failure pre fsBackend post err :
  NoDup (FSBackend.Name <$> pre) →
  Forall opens pre →
  OpenBucket (bucketPath fsBackend) = inr err →
  ProvideService OpenBucket NewCdkBlobStorage wrappedDummy currentDir true
      (pre ++ fsBackend :: post)
    = (inr (OpenBucketError err),
       [LogError "Failed to initialize grafana ds storage"
          (bucketPath fsBackend) err currentDir]).
Proof.
  intros Hnodup Hopens Hfail.
  unfold ProvideService. simpl.
  destruct (provideLoop_complete pre ∅ Hnodup) as [m Hpre]; [done..|].
  rewrite (provideLoop_app _ _ _ _ _ Hpre). simpl. by rewrite Hfail.
Qed.

(** X20.  With the feature disabled the configuration is not read: the service
    has an empty registry, and every operation on it is either refused by
    the validation of its path or answered by the dummy backend, called
    once on the path as it was given. *)
Theorem ProvideService_disabled FS :
  ∃ s,
    ProvideService OpenBucket NewCdkBlobStorage wrappedDummy currentDir false FS
      = (inl s, [LogInfo "Filestorage API disabled"]) ∧
    backendByName s = ∅ ∧
    ∀ order req,
      rangeOrder (backendByName s) order →
      serve s order req =
        match validatePath (requestPath req) with
        | Some err => (Some err, [])
        | None =>
            (answerError wrappedDummy (operationOf req (requestPath req)),
             [LogWarn "Backend not found" (requestPath req)] ++
             assignmentsOf req (requestPath req) ++
             [Call wrappedDummy (operationOf req (requestPath req))])
        end.
Proof.
  exists (mkService wrappedDummy ∅). split_and!; [done..|].
  intros order req Hr. unfold rangeOrder in Hr. simpl in Hr.
  rewrite map_to_list_empty in Hr. apply Permutation_nil_r in Hr. subst order.
  destruct (validatePath (requestPath req)) as [err|] eqn:Hvalid.
  - apply (serve_short_circuit _ _ _ _ []). unfold getBackend. simpl. by rewrite Hvalid.
  - apply (serve_resolved _ _ _ _ _ "").
    unfold getBackend. simpl. by rewrite Hvalid.
Qed.

End ProvideServiceProperties.

(** [ProvideService] on the entries [public] and [upload]. *)
Lemma ProvideService_registry_witness :
  @nil (provideLog string) = [] ∧
  dummyBackend providedService = dummyFileStorage ∧
  size (backendByName providedService) = length [publicFS; uploadFS] ∧
  ∀ name backend,
    backendByName providedService !! name = Some backend ↔
    ∃ fsBackend bucket,
      fsBackend ∈ [publicFS; uploadFS] ∧
      FSBackend.Name fsBackend = name ∧
      openSample ("file://" +:+ FSBackend.Path fsBackend) = inl bucket ∧
      backend =
        newSample ("fileStorage-" +:+ FSBackend.Name fsBackend) bucket ""
          (FSBackend.AllowedPrefixes fsBackend)
          (FSBackend.SupportedOperations fsBackend).
Proof.
  apply (ProvideService_registry openSample newSample dummyFileStorage "/srv"
           [publicFS; uploadFS] providedService []).
  vm_compute. reflexivity.
Defined.

(** A second entry named [public] after [public] and [upload]. *)
Lemma ProvideService_duplicate_name_witness :
  ProvideService openSample newSample dummyFileStorage "/srv" true
      ([publicFS; uploadFS] ++ FSBackend.mk "public" "/srv/other" [] [] :: [])
    = (inr (ErrorsNew
              ("Duplicate backend name " +:+
               FSBackend.Name (FSBackend.mk (SupportedOperation := string)
                                 "public" "/srv/other" [] []))), []).
Proof.
  apply (ProvideService_duplicate_name openSample newSample dummyFileStorage "/srv"
           [publicFS; uploadFS] (FSBackend.mk "public" "/srv/other" [] []) []).
  - compute_done.
  - repeat constructor; by eexists.
  - compute_done.
Defined.

(** An entry named [public] again, whose bucket at [/broken] does not
    open: the bucket's error wins over the duplicate name. *)
Lemma ProvideService_open_failure_witness :
  ProvideService openSample newSample dummyFileStorage "/srv" true
      ([publicFS] ++ brokenFS :: [uploadFS])
    = (inr (OpenBucketError "no such directory"),
       [LogError "Failed to initialize grafana ds storage"
          (bucketPath brokenFS) "no such directory" "/srv"]).
Proof.
  apply (ProvideService_open_failure openSample newSample dummyFileStorage "/srv"
           [publicFS] brokenFS [uploadFS] "no such directory").
  - compute_done.
  - repeat constructor; by eexists.
  - reflexivity.
Defined.
